(** * Quantization scripts of EnglishSubtitles: a shallow embedding

    The development follows the Python sources
      - [python/advanced_quantization.py]         (module [Advanced])
      - [python/mixed_precision_quantization.py]  (module [Mixed])
      - [python/real_quantization.py]             (module [Real])
      - [python/whisper_proper_quantization.py]   (module [Proper])

    Numeric model.  Tensor entries are finite floats; they are represented by
    rationals and every arithmetic operation on finite values is exact.  The
    IEEE special values that NumPy produces on a division by zero are kept
    ([PInf], [NInf], [NaN]), because the scripts do run into them.  Casts to
    8-bit integers are written out with their wrap-around. *)

From Stdlib Require Import ZArith NArith QArith Qround Qminmax Qabs List Bool Lia Lqa.
From Stdlib Require Import String Ascii Strings.Byte.
Import ListNotations.

Local Open Scope Q_scope.

(** ** NumPy floating-point values *)

Module NpFloat.

Inductive npfloat : Type :=
| Fin (q : Q)
| PInf
| NInf
| NaN.

Definition is_zero (q : Q) : bool := Qeq_bool q 0.
Definition is_neg (q : Q) : bool := negb (Qle_bool 0 q).

(** [a + b] *)
Definition fadd (a b : npfloat) : npfloat :=
  match a, b with
  | NaN, _ | _, NaN => NaN
  | Fin x, Fin y => Fin (Qred (x + y))
  | PInf, NInf | NInf, PInf => NaN
  | PInf, _ | _, PInf => PInf
  | NInf, _ | _, NInf => NInf
  end.

(** [- a] *)
Definition fneg (a : npfloat) : npfloat :=
  match a with
  | Fin x => Fin (Qred (- x))
  | PInf => NInf
  | NInf => PInf
  | NaN => NaN
  end.

(** [a - b] *)
Definition fsub (a b : npfloat) : npfloat := fadd a (fneg b).

(** [a * b] *)
Definition fmul (a b : npfloat) : npfloat :=
  match a, b with
  | NaN, _ | _, NaN => NaN
  | Fin x, Fin y => Fin (Qred (x * y))
  | Fin x, PInf | PInf, Fin x =>
      if is_zero x then NaN else if is_neg x then NInf else PInf
  | Fin x, NInf | NInf, Fin x =>
      if is_zero x then NaN else if is_neg x then PInf else NInf
  | PInf, PInf | NInf, NInf => PInf
  | PInf, NInf | NInf, PInf => NaN
  end.

(** [v / 0.0] for a finite [v]: NumPy scalars and arrays do not raise on a
    zero divisor, they give [nan] for [0/0] and a signed infinity otherwise.
    The only zero divisor of the scripts is [w_max - w_min], a positive
    zero. *)
Definition div_by_zero (v : Q) : npfloat :=
  if is_zero v then NaN else if is_neg v then NInf else PInf.

(** [a / b] *)
Definition fdiv (a b : npfloat) : npfloat :=
  match a, b with
  | NaN, _ | _, NaN => NaN
  | Fin x, Fin y =>
      if is_zero y then div_by_zero x else Fin (Qred (x / y))
  | Fin _, _ => Fin 0
  | PInf, Fin y => if is_neg y then NInf else PInf
  | NInf, Fin y => if is_neg y then PInf else NInf
  | _, _ => NaN
  end.

(** Round half to even on rationals, the rounding of [np.round]. *)
Definition round_half_even (x : Q) : Z :=
  let f := Qfloor x in
  match Qcompare (x - inject_Z f) (1 # 2) with
  | Lt => f
  | Gt => (f + 1)%Z
  | Eq => if Z.even f then f else (f + 1)%Z
  end.

(** [np.round(a)]: the result is still a float. *)
Definition fround (a : npfloat) : npfloat :=
  match a with
  | Fin x => Fin (inject_Z (round_half_even x))
  | other => other
  end.

(** Truncation toward zero, the C conversion of a float to an integer. *)
Definition trunc (x : Q) : Z := Z.quot (Qnum x) (Zpos (Qden x)).

Definition wrap_int8 (z : Z) : Z := ((z + 128) mod 256 - 128)%Z.
Definition wrap_uint8 (z : Z) : Z := (z mod 256)%Z.

Definition in_int32 (z : Z) : bool :=
  ((- 2147483648 <=? z) && (z <=? 2147483647))%Z.

(** [a.astype(np.int8)].  A value in the 32-bit range keeps its low byte
    (two's complement wrap-around).  [nan] converts to 0.  The conversion of
    the infinities and of values beyond 32 bits depends on the processor; 0
    is what x86-64 gives, and nothing below depends on that choice. *)
Definition astype_int8 (a : npfloat) : Z :=
  match a with
  | Fin x => let t := trunc x in if in_int32 t then wrap_int8 t else 0%Z
  | _ => 0%Z
  end.

(** [a.astype(np.uint8)], same conventions. *)
Definition astype_uint8 (a : npfloat) : Z :=
  match a with
  | Fin x => let t := trunc x in if in_int32 t then wrap_uint8 t else 0%Z
  | _ => 0%Z
  end.

(** [a.astype(np.float32)] on an integer array. *)
Definition of_int (z : Z) : npfloat := Fin (inject_Z z).

(** [np.clip(z, lo, hi)] on an integer array. *)
Definition clip (lo hi z : Z) : Z := Z.min (Z.max z lo) hi.

(** Equality of float values up to the representation of the rational. *)
Definition feq (a b : npfloat) : Prop :=
  match a, b with
  | Fin x, Fin y => x == y
  | PInf, PInf | NInf, NInf | NaN, NaN => True
  | _, _ => False
  end.


(** [a.min()] and [a.max()] of a flat array of finite values; NumPy raises
    [ValueError] on an empty array. *)
Definition np_min (w : list Q) : option Q :=
  match w with
  | [] => None
  | x :: rest => Some (fold_left Qmin rest x)
  end.

Definition np_max (w : list Q) : option Q :=
  match w with
  | [] => None
  | x :: rest => Some (fold_left Qmax rest x)
  end.

End NpFloat.

(** ** Python exceptions *)

Inductive exn : Type :=
| ValueError
| ZeroDivisionError
| TypeError
| KeyError
| StructError.

Inductive result (A : Type) : Type :=
| Ok (a : A)
| Raise (e : exn).

Arguments Ok {A} a.
Arguments Raise {A} e.

Definition bind {A B : Type} (r : result A) (k : A -> result B) : result B :=
  match r with
  | Ok a => k a
  | Raise e => Raise e
  end.

Notation "x <- r ;; k" := (bind r (fun x => k))
  (at level 61, r at next level, right associativity).

Definition of_option {A : Type} (e : exn) (o : option A) : result A :=
  match o with
  | Some a => Ok a
  | None => Raise e
  end.

(** Sequencing a fallible loop body over a list, in order. *)
Fixpoint mapM {A B : Type} (f : A -> result B) (l : list A) : result (list B) :=
  match l with
  | [] => Ok []
  | a :: rest =>
      b <- f a ;;
      bs <- mapM f rest ;;
      Ok (b :: bs)
  end.

(** ** Arrays and state dictionaries *)

(** A dense row-major array: its shape and its flattened entries. *)
Record ndarray : Type := mk_ndarray {
  shape : list nat;
  flat : list Q
}.

(** [a.size] *)
Definition size (a : ndarray) : nat := List.length (flat a).

(** Element types met in a checkpoint, with [element_size()] in bytes. *)
Inductive dtype : Type :=
| float32
| float16
| float64
| int64
| int32
| uint8
| bool_.

Definition element_size (d : dtype) : Z :=
  match d with
  | float32 => 4
  | float16 => 2
  | float64 => 8
  | int64 => 8
  | int32 => 4
  | uint8 => 1
  | bool_ => 1
  end%Z.

Definition is_float32 (d : dtype) : bool :=
  match d with
  | float32 => true
  | _ => false
  end.

(** One entry of [model.state_dict()]. *)
Record param : Type := mk_param {
  p_dtype : dtype;
  p_array : ndarray
}.

(** [param.numel()] *)
Definition numel (p : param) : Z := Z.of_nat (size (p_array p)).

(** [len(param.shape)] *)
Definition rank (p : param) : nat := List.length (shape (p_array p)).

(** [model.state_dict()]: an ordered dictionary. *)
Definition state_dict : Type := list (string * param).

(** [range(start, stop, step)] for a positive step, with [fuel] bounding the
    number of items. *)
Fixpoint range_from (fuel : nat) (start stop step : nat) : list nat :=
  match fuel with
  | O => []
  | S fuel' =>
      if (start <? stop)%nat
      then start :: range_from fuel' (start + step) stop step
      else []
  end.

Definition range_step (stop step : nat) : list nat :=
  range_from stop 0 stop step.

(** [l[i] = v] on a preallocated array ([i] is always in range below). *)
Fixpoint set_item {A : Type} (l : list A) (i : nat) (v : A) : list A :=
  match l, i with
  | [], _ => []
  | _ :: rest, O => v :: rest
  | x :: rest, S i' => x :: set_item rest i' v
  end.

(** [l[start:stop]] for non-negative bounds. *)
Definition slice {A : Type} (l : list A) (start stop : nat) : list A :=
  firstn (stop - start) (skipn start l).

(** [needle in haystack] on Python strings. *)
Fixpoint contains (needle haystack : string) : bool :=
  if prefix needle haystack then true
  else match haystack with
       | EmptyString => false
       | String _ rest => contains needle rest
       end.

Import NpFloat.

(** ** python/advanced_quantization.py *)

Module Advanced.

(** The dictionary returned by [quantize_int8]. *)
Record Int8Result : Type := mk_Int8Result {
  i8_weights : list Z;
  i8_scale : npfloat;
  i8_zero_point : npfloat;
  i8_shape : list nat
}.

(** The dictionary returned by [quantize_int4]. *)
Record Int4Result : Type := mk_Int4Result {
  i4_packed_weights : list Z;
  i4_scale : npfloat;
  i4_zero_point : npfloat;
  i4_shape : list nat;
  i4_original_size : nat
}.

(** The dictionary returned by the block loop of [quantize_block_wise]. *)
Record BlockResult : Type := mk_BlockResult {
  b_blocks : list (list Z);
  b_scales : list npfloat;
  b_zero_points : list npfloat;
  b_shape : list nat;
  b_block_size : Z
}.

(** [quantize_int4], lines 44-53: the array [quantized] before packing. *)
Definition int4_scale (w_min w_max : Q) : npfloat :=
  fdiv (fsub (Fin w_max) (Fin w_min)) (Fin 15).

Definition int4_code (scale zero_point : npfloat) (v : Q) : Z :=
  clip 0 15 (astype_uint8 (fround (fdiv (fsub (Fin v) zero_point) scale))).

(** [quantize_int4], lines 56-60: two codes per byte. *)
Definition pack_step (quantized : list Z) (packed : list Z) (i : nat) : list Z :=
  let low := nth i quantized 0%Z in
  let high :=
    if (i + 1 <? List.length quantized)%nat then nth (i + 1) quantized 0%Z else 0%Z in
  set_item packed (i / 2) (wrap_uint8 (Z.lor (Z.shiftl high 4) low)).

Definition pack (quantized : list Z) : list Z :=
  let n := List.length quantized in
  fold_left (pack_step quantized) (range_step n 2) (repeat 0%Z ((n + 1) / 2)).

Definition quantize_int4 (weights : ndarray) : result Int4Result :=
  w_min <- of_option ValueError (np_min (flat weights)) ;;
  w_max <- of_option ValueError (np_max (flat weights)) ;;
  let scale := int4_scale w_min w_max in
  let zero_point := Fin w_min in
  let quantized := map (int4_code scale zero_point) (flat weights) in
  Ok {| i4_packed_weights := pack quantized;
        i4_scale := scale;
        i4_zero_point := zero_point;
        i4_shape := shape weights;
        i4_original_size := List.length quantized |}.

(** [quantize_int8], lines 95-108. *)
Definition int8_scale (w_min w_max : Q) : npfloat :=
  fdiv (fsub (Fin w_max) (Fin w_min)) (Fin 254).

Definition int8_zero_point (w_min : Q) (scale : npfloat) : npfloat :=
  fsub (Fin (-127)) (fdiv (Fin w_min) scale).

(** [np.round((weights / scale) + zero_point)], one entry. *)
Definition int8_rounded (scale zero_point : npfloat) (v : Q) : npfloat :=
  fround (fadd (fdiv (Fin v) scale) zero_point).

Definition int8_code (scale zero_point : npfloat) (v : Q) : Z :=
  astype_int8 (int8_rounded scale zero_point v).

Definition quantize_int8 (weights : ndarray) : result Int8Result :=
  w_min <- of_option ValueError (np_min (flat weights)) ;;
  w_max <- of_option ValueError (np_max (flat weights)) ;;
  let scale := int8_scale w_min w_max in
  let zero_point := int8_zero_point w_min scale in
  Ok {| i8_weights := map (int8_code scale zero_point) (flat weights);
        i8_scale := scale;
        i8_zero_point := zero_point;
        i8_shape := shape weights |}.

(** [quantize_mixed_precision], lines 76-89. *)
Definition critical_layers : list string :=
  [ "encoder.conv1"; "encoder.conv2"; "decoder.token_embedding"; "decoder.ln" ]%string.

Definition is_critical (layer_name : string) : bool :=
  existsb (fun critical => contains critical layer_name) critical_layers.

Inductive MixedResult : Type :=
| MixedInt8 (r : Int8Result) (bits : Z)
| MixedInt4 (r : Int4Result) (bits : Z).

Definition quantize_mixed_precision (weights : ndarray) (layer_name : string)
  : result MixedResult :=
  if is_critical layer_name
  then (r <- quantize_int8 weights ;; Ok (MixedInt8 r 8))
  else (r <- quantize_int4 weights ;; Ok (MixedInt4 r 4)).

(** [quantize_block_wise], lines 114-152.  The function has two result
    structures: the pair [(quantize_int8(weights), 8)] of the early return,
    and the dictionary of blocks. *)
Inductive BlockWiseResult : Type :=
| WholeTensor (r : Int8Result) (bits : Z)
| Blocks (r : BlockResult).

(** Lines 130-138: the parameters of one block. *)
Definition block_params (w_min w_max : Q) : npfloat * npfloat :=
  if Qeq_bool w_max w_min
  then (Fin 1, Fin w_min)
  else
    let scale := int8_scale w_min w_max in
    (scale, int8_zero_point w_min scale).

(** Lines 125-144: the body of the loop, for block number [i]. *)
Definition quantize_block (flat_weights : list Q) (block_size : nat) (i : nat)
  : result (list Z * npfloat * npfloat) :=
  let start_idx := (i * block_size)%nat in
  let end_idx := Nat.min ((i + 1) * block_size) (List.length flat_weights) in
  let block := slice flat_weights start_idx end_idx in
  w_min <- of_option ValueError (np_min block) ;;
  w_max <- of_option ValueError (np_max block) ;;
  let '(scale, zero_point) := block_params w_min w_max in
  Ok (map (int8_code scale zero_point) block, scale, zero_point).

Definition quantize_block_wise (weights : ndarray) (block_size : Z)
  : result BlockWiseResult :=
  if (Z.of_nat (size weights) <? block_size)%Z
  then (r <- quantize_int8 weights ;; Ok (WholeTensor r 8))
  else
    let flat_weights := flat weights in
    if (block_size =? 0)%Z then Raise ZeroDivisionError
    else
      let num_blocks :=
        ((Z.of_nat (List.length flat_weights) + block_size - 1) / block_size)%Z in
      rs <- mapM (quantize_block flat_weights (Z.to_nat block_size))
                 (seq 0 (Z.to_nat num_blocks)) ;;
      Ok (Blocks {| b_blocks := map (fun r => fst (fst r)) rs;
                    b_scales := map (fun r => snd (fst r)) rs;
                    b_zero_points := map snd rs;
                    b_shape := shape weights;
                    b_block_size := block_size |}).

(** [advanced_quantization], lines 164-215: the loop body.  [method] ranges
    over the four names [compare_quantization_methods] passes. *)
Inductive method : Type :=
| int4
| int8
| mixed
| block.

Inductive AdvancedData : Type :=
| DataInt4 (r : Int4Result)
| DataInt8 (r : Int8Result)
| DataBlocks (r : BlockResult)
| DataOriginal (a : ndarray).

(** [a.nbytes] of an array of 8-bit integers. *)
Definition nbytes8 (a : list Z) : Z := Z.of_nat (List.length a).

(** [weights.nbytes] of a parameter. *)
Definition nbytes (p : param) : Z := (numel p * element_size (p_dtype p))%Z.

Definition sumZ (l : list Z) : Z := fold_left Z.add l 0%Z.

(** The size and data computed for one tensor.  [itemsize] is the byte
    width of the entries of [np.array(scales)], which depends on the NumPy
    version (4 or 8). *)
Definition advanced_entry (itemsize : Z) (m : method) (name : string) (p : param)
  : result (AdvancedData * Z * Z) :=
  if is_float32 (p_dtype p) && (2 <=? rank p)%nat
  then
    let weights := p_array p in
    let original_size := nbytes p in
    match m with
    | int4 =>
        r <- quantize_int4 weights ;;
        Ok (DataInt4 r, original_size, (nbytes8 (i4_packed_weights r) + 16)%Z)
    | int8 =>
        r <- quantize_int8 weights ;;
        Ok (DataInt8 r, original_size, (nbytes8 (i8_weights r) + 16)%Z)
    | mixed =>
        r <- quantize_mixed_precision weights name ;;
        match r with
        | MixedInt8 r8 bits =>
            if (bits =? 8)%Z
            then Ok (DataInt8 r8, original_size, (nbytes8 (i8_weights r8) + 16)%Z)
            else Raise KeyError
        | MixedInt4 r4 bits =>
            if (bits =? 8)%Z
            then Raise KeyError
            else Ok (DataInt4 r4, original_size, (nbytes8 (i4_packed_weights r4) + 16)%Z)
        end
    | block =>
        r <- quantize_block_wise weights 128 ;;
        match r with
        | WholeTensor _ _ => Raise TypeError
        | Blocks b =>
            let total_block_size :=
              sumZ (map (fun blk => Z.of_nat (List.length blk)) (b_blocks b)) in
            let scales_size := (itemsize * Z.of_nat (List.length (b_scales b)))%Z in
            let zero_points_size :=
              (itemsize * Z.of_nat (List.length (b_zero_points b)))%Z in
            Ok (DataBlocks b, original_size,
                (total_block_size + scales_size + zero_points_size + 32)%Z)
        end
    end
  else
    Ok (DataOriginal (p_array p), nbytes p, nbytes p).



(** [a / b] on Python integers. *)
Definition true_div (a b : Z) : result Q :=
  if (b =? 0)%Z then Raise ZeroDivisionError
  else Ok (Qred (inject_Z a / inject_Z b)).




End Advanced.

(** ** python/mixed_precision_quantization.py *)

Module Mixed.

(** The payload of a saved entry: an integer array or a float array. *)
Inductive array_data : Type :=
| IntArray (l : list Z)
| FloatArray (l : list npfloat).

(** One entry of [quantized_state]: a dictionary with the keys ['weights']
    and ['dtype'], and for int8 entries ['scale'], ['zero_point'] and
    ['shape'].  A key that is absent is [None]. *)
Record Entry : Type := mk_Entry {
  e_weights : array_data;
  e_dtype : string;
  e_scale : option npfloat;
  e_zero_point : option npfloat;
  e_shape : option (list nat)
}.

(** [str(param.dtype)] *)
Definition dtype_str (d : dtype) : string :=
  match d with
  | float32 => "torch.float32"
  | float16 => "torch.float16"
  | float64 => "torch.float64"
  | int64 => "torch.int64"
  | int32 => "torch.int32"
  | uint8 => "torch.uint8"
  | bool_ => "torch.bool"
  end%string.

(** Lines 58-120: the decision tree of the loop body. *)
Inductive Strategy : Type :=
| ToInt8
| ToFloat16
| Unchanged.

Definition strategy (p : param) : Strategy :=
  if is_float32 (p_dtype p)
  then
    if (2 <=? rank p)%nat && (1000 <? numel p)%Z then ToInt8
    else if (1 <? numel p)%Z then ToFloat16
    else Unchanged
  else Unchanged.

Section Narrowing.

(** [param.half()], the narrowing of one float32 value to half precision. *)
Variable half : Q -> npfloat.

(** Lines 55-120: the entry stored for one parameter, with
    [original_size] and [quantized_size]. *)
Definition quantize_param (p : param) : result (Entry * Z * Z) :=
  let original_size := (numel p * element_size (p_dtype p))%Z in
  match strategy p with
  | ToInt8 =>
      let weights := p_array p in
      w_min <- of_option ValueError (np_min (flat weights)) ;;
      w_max <- of_option ValueError (np_max (flat weights)) ;;
      let scale := Advanced.int8_scale w_min w_max in
      let zero_point := Advanced.int8_zero_point w_min scale in
      let quantized_weights :=
        map (Advanced.int8_code scale zero_point) (flat weights) in
      Ok ({| e_weights := IntArray quantized_weights;
             e_dtype := "int8";
             e_scale := Some scale;
             e_zero_point := Some zero_point;
             e_shape := Some (shape weights) |},
          original_size,
          (Advanced.nbytes8 quantized_weights + 16)%Z)
  | ToFloat16 =>
      Ok ({| e_weights := FloatArray (map half (flat (p_array p)));
             e_dtype := "float16";
             e_scale := None;
             e_zero_point := None;
             e_shape := None |},
          original_size,
          (numel p * 2)%Z)
  | Unchanged =>
      Ok ({| e_weights := FloatArray (map Fin (flat (p_array p)));
             e_dtype := if is_float32 (p_dtype p) then "float32"
                        else dtype_str (p_dtype p);
             e_scale := None;
             e_zero_point := None;
             e_shape := None |},
          original_size,
          original_size)
  end.

End Narrowing.

(** [weights.astype(np.float32)] *)
Definition astype_float32 (a : array_data) : list npfloat :=
  match a with
  | IntArray l => map of_int l
  | FloatArray l => l
  end.

(** Line 191: [(weights.astype(np.float32) - zero_point) * scale]. *)
Definition dequantize (scale zero_point : npfloat) (weights : array_data)
  : list npfloat :=
  map (fun w => fmul (fsub w zero_point) scale) (astype_float32 weights).



End Mixed.

(** ** python/whisper_proper_quantization.py *)

Module Proper.

(** [quantize_weights_to_int8], lines 53-90: the sizes accounted for one
    parameter. *)
Definition quantize_param (p : param) : result (Advanced.AdvancedData * Z * Z) :=
  if is_float32 (p_dtype p) && (2 <=? rank p)%nat
  then
    let weights := p_array p in
    let original_size := Advanced.nbytes p in
    w_min <- of_option ValueError (np_min (flat weights)) ;;
    w_max <- of_option ValueError (np_max (flat weights)) ;;
    let scale := Advanced.int8_scale w_min w_max in
    let zero_point := Advanced.int8_zero_point w_min scale in
    let quantized_weights :=
      map (Advanced.int8_code scale zero_point) (flat weights) in
    Ok (Advanced.DataInt8
          {| Advanced.i8_weights := quantized_weights;
             Advanced.i8_scale := scale;
             Advanced.i8_zero_point := zero_point;
             Advanced.i8_shape := shape weights |},
        original_size,
        (Advanced.nbytes8 quantized_weights + 8)%Z)
  else
    Ok (Advanced.DataOriginal (p_array p), Advanced.nbytes p, Advanced.nbytes p).

End Proper.

(** ** python/real_quantization.py *)

Module Real.


Definition original_size (p : param) : Z :=
  (numel p * element_size (p_dtype p))%Z.

Definition total_original (sd : state_dict) : Z :=
  fold_left (fun total kv => (total + original_size (snd kv))%Z) sd 0%Z.



(** *** Reading a parameter file back: [test_loading_quantized_model] *)

Definition byte_val (b : byte) : Z := Z.of_N (Byte.to_N b).

(** [f.read(n)] on a buffered binary file: at most [n] bytes, the rest of
    the file for [n = -1], [ValueError] below that. *)
Definition read (n : Z) (f : list byte) : result (list byte * list byte) :=
  if (n <? -1)%Z then Raise ValueError
  else if (n =? -1)%Z then Ok (f, [])
  else Ok (firstn (Z.to_nat n) f, skipn (Z.to_nat n) f).

Fixpoint le_unsigned (bs : list byte) : Z :=
  match bs with
  | [] => 0
  | b :: rest => byte_val b + 256 * le_unsigned rest
  end%Z.

Definition wrap_signed (bits : Z) (z : Z) : Z :=
  ((z + 2 ^ (bits - 1)) mod 2 ^ bits - 2 ^ (bits - 1))%Z.

(** [struct.unpack('i', bs)[0]]: four bytes, little endian, signed. *)
Definition unpack_i (bs : list byte) : result Z :=
  if (List.length bs =? 4)%nat then Ok (wrap_signed 32 (le_unsigned bs))
  else Raise StructError.

(** [struct.unpack('B', bs)[0]] *)
Definition unpack_B (bs : list byte) : result Z :=
  match bs with
  | [b] => Ok (byte_val b)
  | _ => Raise StructError
  end.

(** Lines 186-189: the header. *)
Fixpoint read_dims (ndims : nat) (f : list byte) : result (list Z * list byte) :=
  match ndims with
  | O => Ok ([], f)
  | S k =>
      r <- read 4 f ;;
      d <- unpack_i (fst r) ;;
      ds <- read_dims k (snd r) ;;
      Ok (d :: fst ds, snd ds)
  end.

(** [np.prod(shape)] on a non-empty list of integers: a 64-bit product. *)
Definition prod64 (shape : list Z) : Z :=
  fold_left (fun acc d => wrap_signed 64 (acc * d)) shape 1%Z.

(** [a.reshape(shape)] succeeds when the entry count fits the shape; one
    dimension may be the wildcard [-1]. *)
Definition reshape_ok (len : Z) (shape : list Z) : bool :=
  match filter (fun d => (d <? 0)%Z) shape with
  | [] => (len =? fold_left Z.mul shape 1)%Z
  | [d] =>
      let known := fold_left Z.mul (filter (fun d => (0 <=? d)%Z) shape) 1%Z in
      (d =? -1)%Z && negb (known =? 0)%Z && (len mod known =? 0)%Z
  | _ => false
  end.

Definition int8_of_byte (b : byte) : Z := NpFloat.wrap_int8 (byte_val b).

Fixpoint pairs (bs : list byte) : list (list byte) :=
  match bs with
  | b1 :: b2 :: rest => [b1; b2] :: pairs rest
  | _ => []
  end.

Inductive Loaded : Type :=
| LoadedParam (shape : list Z) (values : list npfloat)
| NotLoaded.

Section Decoding.

(** Decoding of an IEEE double ([struct.unpack('d', _)]) and of a half-precision
    value ([np.frombuffer(_, dtype=np.float16)]) from their bytes. *)
Variable unpack_d : list byte -> npfloat.
Variable unpack_h : list byte -> npfloat.

Definition read_d (f : list byte) : result (npfloat * list byte) :=
  r <- read 8 f ;;
  if (List.length (fst r) =? 8)%nat then Ok (unpack_d (fst r), snd r)
  else Raise StructError.

(** Lines 184-214: one parameter file, given [info['type']]. *)
Definition load_param (type : string) (f : list byte) : result Loaded :=
  r <- read 4 f ;;
  ndims <- unpack_i (fst r) ;;
  hd <- read_dims (Z.to_nat ndims) (snd r) ;;
  let '(shape, f) := hd in
  if String.eqb type "int8"
  then
    sc <- read_d f ;;
    zp <- read_d (snd sc) ;;
    r <- read 1 (snd zp) ;;
    bits <- unpack_B (fst r) ;;
    match shape with
    | [] => Raise TypeError
    | _ =>
        let data_size := prod64 shape in
        r <- read data_size (snd r) ;;
        let int8_data := map int8_of_byte (fst r) in
        let float_data :=
          map (fun w => fmul (fsub (of_int w) (fst zp)) (fst sc)) int8_data in
        if reshape_ok (Z.of_nat (List.length float_data)) shape
        then Ok (LoadedParam shape float_data)
        else Raise ValueError
    end
  else if String.eqb type "float16"
  then
    r <- read 1 f ;;
    bits <- unpack_B (fst r) ;;
    match shape with
    | [] => Raise TypeError
    | _ =>
        let data_size := wrap_signed 64 (prod64 shape * 2) in
        r <- read data_size (snd r) ;;
        if Nat.even (List.length (fst r))
        then
          let float16_data := map unpack_h (pairs (fst r)) in
          if reshape_ok (Z.of_nat (List.length float16_data)) shape
          then Ok (LoadedParam shape float16_data)
          else Raise ValueError
        else Raise ValueError
    end
  else Ok NotLoaded.



End Decoding.

End Real.

(** ** The specification's view, for comparison with the code *)

Module Spec.

(** The closed set of schemes of the specification (section 3). *)
Inductive QuantizationScheme : Type :=
| Int8Linear
| Int4Packed
| BlockInt8 (block_size : Z)
| Float16
| Passthrough.

(** The global mode a caller may request (section 4.1). *)
Inductive Mode : Type :=
| Default
| Aggressive
| Accurate (block_size : Z).

(** Scheme selection as the specification words it (section 4.1): an
    ordered policy, first match wins.  [critical] is the configured set of
    critical names. *)
Definition select (critical : string -> bool) (mode : Mode)
  (name : string) (shape : list nat) (element_count : Z) : QuantizationScheme :=
  if (element_count <=? 1)%Z then Passthrough
  else if (List.length shape <? 2)%nat then Float16
  else if critical name then Int8Linear
  else if (1000 <? element_count)%Z && (2 <=? List.length shape)%nat
  then match mode with
       | Default => Int8Linear
       | Aggressive => Int4Packed
       | Accurate b => BlockInt8 b
       end
  else Float16.

(** The scheme a strategy of [mixed_precision_quantization] stands for. *)
Definition scheme_of_strategy (s : Mixed.Strategy) : QuantizationScheme :=
  match s with
  | Mixed.ToInt8 => Int8Linear
  | Mixed.ToFloat16 => Float16
  | Mixed.Unchanged => Passthrough
  end.

(** The scheme [quantize_mixed_precision] uses for a result. *)
Definition scheme_of_mixed (r : Advanced.MixedResult) : QuantizationScheme :=
  match r with
  | Advanced.MixedInt8 _ _ => Int8Linear
  | Advanced.MixedInt4 _ _ => Int4Packed
  end.

(** [np.clip] on a float value. *)
Definition fclip (lo hi : Q) (a : npfloat) : npfloat :=
  match a with
  | Fin x => Fin (Qmin (Qmax x lo) hi)
  | PInf => Fin hi
  | NInf => Fin lo
  | NaN => NaN
  end.

(** Int8Linear encode as the specification words it (section 4.2): round,
    clamp to [-128, 127], store as a signed 8-bit integer. *)
Definition int8_code (scale zero_point : npfloat) (v : Q) : Z :=
  astype_int8
    (fclip (-128) 127 (fround (fadd (fdiv (Fin v) scale) zero_point))).

(** Modelled from the spec: the repository has no decoder for packed 4-bit
    codes.  Section 4.2 has the even-indexed code in the low nibble, the
    odd-indexed code in the high nibble, and the true element count deciding
    how many nibbles are read. *)
Definition unpack (packed : list Z) (element_count : nat) : list Z :=
  firstn element_count
    (flat_map (fun b => [Z.land b 15; Z.shiftr b 4]) packed).

(** The totals of the Compression Reporter as the specification words them
    (section 4.4): four bytes per element. *)
Definition total_original (sd : state_dict) : Z :=
  fold_left (fun total kv => (total + numel (snd kv) * 4)%Z) sd 0%Z.

End Spec.

(** ** Properties named by the specification *)


(** The degenerate-range path of section 4.2: scale 1.0, and decoding
    returns the constant exactly. *)
Definition degenerate_range_guarded (T : ndarray) (c : Q) : Prop :=
  exists r,
    Advanced.quantize_int8 T = Ok r
    /\ feq (Advanced.i8_scale r) (Fin 1)
    /\ Forall (fun d => feq d (Fin c))
         (Mixed.dequantize (Advanced.i8_scale r) (Advanced.i8_zero_point r)
            (Mixed.IntArray (Advanced.i8_weights r))).

(** Block number [i] of the partition of section 4.2: the range
    [flat_weights[start_idx:end_idx]] of the loop of [quantize_block_wise]. *)
Definition block_slice (l : list Q) (block_size i : nat) : list Q :=
  slice l (i * block_size) (Nat.min ((i + 1) * block_size) (List.length l)).

(** The number of blocks for [n] entries. *)
Definition num_blocks (n block_size : nat) : nat :=
  ((n + block_size - 1) / block_size)%nat.

(** What the loop of [quantize_block_wise] stores for one block: the codes
    with the block's own scale and zero-point. *)
Definition encoded_block (block : list Q) (codes : list Z) (scale zero_point : npfloat)
  : Prop :=
  exists w_min w_max,
    np_min block = Some w_min /\ np_max block = Some w_max
    /\ (scale, zero_point) = Advanced.block_params w_min w_max
    /\ codes = map (Advanced.int8_code scale zero_point) block.

(** Block-wise encoding as section 4.2 has it: contiguous blocks of
    [block_size] entries that make up the flattened tensor, the last one
    possibly shorter, each encoded on its own. *)
Definition partitioned_into_blocks (T : ndarray) (block_size : nat)
  (r : Advanced.BlockResult) : Prop :=
  let k := num_blocks (size T) block_size in
  List.length (Advanced.b_blocks r) = k
  /\ List.length (Advanced.b_scales r) = k
  /\ List.length (Advanced.b_zero_points r) = k
  /\ List.concat (map (block_slice (flat T) block_size) (seq 0 k)) = flat T
  /\ forall i, (i < k)%nat ->
       List.length (nth i (Advanced.b_blocks r) [])
       = (if (i + 1 <? k)%nat then block_size
          else size T - (k - 1) * block_size)%nat
       /\ encoded_block (block_slice (flat T) block_size i)
            (nth i (Advanced.b_blocks r) [])
            (nth i (Advanced.b_scales r) NaN)
            (nth i (Advanced.b_zero_points r) NaN).

(** The claim of section 4.2 for one tensor and block size. *)
Definition block_wise_partitions (T : ndarray) (block_size : nat) : Prop :=
  exists r,
    Advanced.quantize_block_wise T (Z.of_nat block_size) = Ok (Advanced.Blocks r)
    /\ partitioned_into_blocks T block_size r.

(** What the loop body of [quantize_block_wise] returns for block [i], as a
    total function of the block number. *)
Definition block_entry (l : list Q) (b i : nat) : list Z * npfloat * npfloat :=
  let block := block_slice l b i in
  match np_min block, np_max block with
  | Some w_min, Some w_max =>
      let '(scale, zero_point) := Advanced.block_params w_min w_max in
      (map (Advanced.int8_code scale zero_point) block, scale, zero_point)
  | _, _ => ([], NaN, NaN)
  end.


(** The sum of [g] over a list. *)
Definition sumZ_of {A : Type} (g : A -> Z) (l : list A) : Z :=
  fold_left Z.add (map g l) 0%Z.

(** The byte the packing loop of [quantize_int4] writes at position [j]. *)
Definition packed_byte (quantized : list Z) (j : nat) : Z :=
  wrap_uint8
    (Z.lor (Z.shiftl (nth (2 * j + 1) quantized 0%Z) 4) (nth (2 * j) quantized 0%Z)).

(** ** python/mixed_precision_quantization.py: the whole pass *)

Module MixedRun.

(** The counters of [mixed_precision_quantization], lines 48-52. *)
Record Stats : Type := mk_Stats {
  total_original_size : Z;
  total_quantized_size : Z;
  int8_count : Z;
  float16_count : Z;
  unchanged_count : Z
}.

Definition initial : Stats :=
  {| total_original_size := 0;
     total_quantized_size := 0;
     int8_count := 0;
     float16_count := 0;
     unchanged_count := 0 |}.

(** Lines 84, 99, 110 and 120: the counter a branch increments. *)
Definition count (s : Mixed.Strategy) (st : Stats) : Stats :=
  match s with
  | Mixed.ToInt8 =>
      {| total_original_size := total_original_size st;
         total_quantized_size := total_quantized_size st;
         int8_count := int8_count st + 1;
         float16_count := float16_count st;
         unchanged_count := unchanged_count st |}
  | Mixed.ToFloat16 =>
      {| total_original_size := total_original_size st;
         total_quantized_size := total_quantized_size st;
         int8_count := int8_count st;
         float16_count := float16_count st + 1;
         unchanged_count := unchanged_count st |}
  | Mixed.Unchanged =>
      {| total_original_size := total_original_size st;
         total_quantized_size := total_quantized_size st;
         int8_count := int8_count st;
         float16_count := float16_count st;
         unchanged_count := unchanged_count st + 1 |}
  end%Z.

(** Lines 56 and 122: the sizes a parameter adds to the totals. *)
Definition add_sizes (original_size quantized_size : Z) (st : Stats) : Stats :=
  {| total_original_size := total_original_size st + original_size;
     total_quantized_size := total_quantized_size st + quantized_size;
     int8_count := int8_count st;
     float16_count := float16_count st;
     unchanged_count := unchanged_count st |}%Z.

(** What is printed after the loop, lines 125-127. *)
Record Summary : Type := mk_Summary {
  overall_compression : Q;
  savings_mb : Q;
  savings_percent : Q
}.

Section Run.

Variable half : Q -> npfloat.

(** Lines 54-122: the loop.  The keys of a state dictionary are distinct, so
    the entries of [quantized_state] are listed in the order of the
    parameters. *)
Fixpoint loop (sd : state_dict) (quantized_state : list (string * Mixed.Entry))
  (st : Stats) : result (list (string * Mixed.Entry) * Stats) :=
  match sd with
  | [] => Ok (quantized_state, st)
  | (name, p) :: rest =>
      e <- Mixed.quantize_param half p ;;
      let '(entry, original_size, quantized_size) := e in
      loop rest (quantized_state ++ [(name, entry)])
        (add_sizes original_size quantized_size (count (Mixed.strategy p) st))
  end.

(** Lines 125-127. *)
Definition summary (st : Stats) : result Summary :=
  overall_compression <-
    Advanced.true_div (total_original_size st) (total_quantized_size st) ;;
  ratio <- Advanced.true_div (total_quantized_size st) (total_original_size st) ;;
  Ok {| overall_compression := overall_compression;
        savings_mb :=
          Qred (inject_Z (total_original_size st - total_quantized_size st)
                / inject_Z (1024 * 1024));
        savings_percent := Qred ((1 - ratio) * 100) |}.

(** [mixed_precision_quantization]: the dictionary it returns, with the
    counters and the figures it prints. *)
Definition mixed_precision_quantization (sd : state_dict)
  : result (list (string * Mixed.Entry) * Stats * Summary) :=
  r <- loop sd [] initial ;;
  s <- summary (snd r) ;;
  Ok (fst r, snd r, s).

End Run.

End MixedRun.


(** ** python/whisper_proper_quantization.py: the whole pass and its loader *)

Module ProperRun.

(** [quantize_weights_to_int8], lines 48-98: the loop with its two totals. *)
Fixpoint loop (sd : state_dict) (quantized_state : list (string * Advanced.AdvancedData))
  (total_original_size total_quantized_size : Z)
  : result (list (string * Advanced.AdvancedData) * Z * Z) :=
  match sd with
  | [] => Ok (quantized_state, total_original_size, total_quantized_size)
  | (name, p) :: rest =>
      e <- Proper.quantize_param p ;;
      let '(data, original_size, quantized_size) := e in
      loop rest (quantized_state ++ [(name, data)])
        (total_original_size + original_size)%Z
        (total_quantized_size + quantized_size)%Z
  end.

Definition quantize_weights_to_int8 (sd : state_dict)
  : result (list (string * Advanced.AdvancedData)) :=
  r <- loop sd [] 0 0 ;;
  let '(quantized_state, total_original_size, total_quantized_size) := r in
  overall_compression <- Advanced.true_div total_original_size total_quantized_size ;;
  Ok quantized_state.



End ProperRun.



(** ** python/real_quantization.py: writing the parameter files *)

Module RealWrite.

(** [name.replace('.', '_')] *)
Fixpoint replace_dots (s : string) : string :=
  match s with
  | EmptyString => EmptyString
  | String c rest =>
      String (if Ascii.eqb c "."%char then "_"%char else c) (replace_dots rest)
  end.

(** Line 45: the file of a parameter. *)
Definition param_file_name (name : string) : string :=
  (replace_dots name ++ ".bin")%string.

(** The byte holding [z] modulo 256. *)
Definition byte_of_Z (z : Z) : byte :=
  match Byte.of_N (Z.to_N (z mod 256)) with
  | Some b => b
  | None => x00
  end.

(** [struct.pack('i', n)]: four bytes, little endian, two's complement;
    [struct.error] outside 32 bits. *)
Definition pack_i (n : Z) : result (list byte) :=
  if ((- 2147483648 <=? n) && (n <=? 2147483647))%Z
  then Ok [byte_of_Z n; byte_of_Z (n / 256); byte_of_Z (n / 65536);
           byte_of_Z (n / 16777216)]
  else Raise StructError.

(** The header every branch writes: the number of dimensions, then each
    dimension. *)
Definition header (shape : list nat) : result (list byte) :=
  ndims <- pack_i (Z.of_nat (List.length shape)) ;;
  dims <- mapM (fun dim => pack_i (Z.of_nat dim)) shape ;;
  Ok (ndims ++ List.concat dims).

(** A directory: file names with their content; writing a file replaces the
    file of the same name. *)
Fixpoint write_file (files : list (string * list byte)) (name : string)
  (content : list byte) : list (string * list byte) :=
  match files with
  | [] => [(name, content)]
  | (n, c) :: rest =>
      if String.eqb n name then (name, content) :: rest
      else (n, c) :: write_file rest name content
  end.

Fixpoint read_file (files : list (string * list byte)) (name : string)
  : option (list byte) :=
  match files with
  | [] => None
  | (n, c) :: rest => if String.eqb n name then Some c else read_file rest name
  end.

Section Encoding.

(** [struct.pack('d', x)], the bytes of one value converted to half
    precision, and the bytes of one entry of an array of a given type
    ([tobytes]). *)
Variable pack_d : npfloat -> list byte.
Variable pack_h : Q -> list byte.
Variable pack_raw : dtype -> Q -> list byte.

(** [quantize_and_save_real], lines 47-126: the type recorded in the
    metadata and the content of the file of one parameter. *)
Definition write_param (p : param) : result (string * list byte) :=
  let weights := p_array p in
  hd <- header (shape weights) ;;
  if is_float32 (p_dtype p) && (2 <=? rank p)%nat && (1000 <? numel p)%Z
  then
    w_min <- of_option ValueError (np_min (flat weights)) ;;
    w_max <- of_option ValueError (np_max (flat weights)) ;;
    let scale := Advanced.int8_scale w_min w_max in
    let zero_point := Advanced.int8_zero_point w_min scale in
    let quantized := map (Advanced.int8_code scale zero_point) (flat weights) in
    Ok ("int8"%string,
        hd ++ pack_d scale ++ pack_d zero_point ++ [x08]
           ++ map byte_of_Z quantized)
  else if is_float32 (p_dtype p) && (1 <? numel p)%Z
  then
    Ok ("float16"%string,
        hd ++ [x10] ++ List.concat (map pack_h (flat weights)))
  else
    Ok ("float32"%string,
        hd ++ [x20] ++ List.concat (map (pack_raw (p_dtype p)) (flat weights))).

(** Lines 41-128: the loop, with the directory and the parameters of the
    metadata (name, file, type). *)
Fixpoint save_loop (sd : state_dict) (files : list (string * list byte))
  (parameters : list (string * (string * string)))
  : result (list (string * list byte) * list (string * (string * string))) :=
  match sd with
  | [] => Ok (files, parameters)
  | (name, p) :: rest =>
      r <- write_param p ;;
      let param_file := param_file_name name in
      save_loop rest (write_file files param_file (snd r))
        (parameters ++ [(name, (param_file, fst r))])
  end.

End Encoding.

End RealWrite.
(** * Properties *)

(** ** Rounding *)






(** ** Minimum and maximum of an array *)





Lemma np_min_some (w : list Q) : w <> [] -> exists lo, np_min w = Some lo.
Proof. destruct w; [congruence | eexists; reflexivity]. Qed.

Lemma np_max_some (w : list Q) : w <> [] -> exists hi, np_max w = Some hi.
Proof. destruct w; [congruence | eexists; reflexivity]. Qed.



(** The minimum [lo] and the maximum [hi] of a non-empty array. *)
Ltac array_bounds Hne :=
  destruct (np_min_some _ Hne) as [lo Hlo];
  destruct (np_max_some _ Hne) as [hi Hhi].


(** ** Finite arithmetic *)







(** ** Int8 quantization of a non-degenerate range *)

Section Int8.

Import Advanced.

Variables lo hi : Q.
Hypothesis range : lo < hi.







End Int8.

(** ** Lists *)


Lemma Forall2_map_r {A B : Type} (P : A -> B -> Prop) (f : A -> B) (l : list A) :
  (forall v, In v l -> P v (f v)) -> Forall2 P l (map f l).
Proof.
  induction l as [|x l IH]; intros H; simpl; constructor.
  - apply H. left. reflexivity.
  - apply IH. intros v Hv. apply H. right. exact Hv.
Qed.

(** ** Whole-tensor int8 quantization *)

Section QuantizeInt8.

Import Advanced.

Variable T : ndarray.
Variables a b : Q.
Hypothesis in_a : In a (flat T).
Hypothesis in_b : In b (flat T).
Hypothesis distinct : ~ a == b.



End QuantizeInt8.




(** The dequantization formula of the repository does not invert the
    4-bit encoding, whose zero-point is the minimum itself: on the entries
    1 and 16 the codes are 0 and 15, the scale is 1 and the zero-point 1, and
    the formula gives -1 and 14. *)
Lemma int4_not_inverted_by_dequantize :
  exists r,
    Advanced.quantize_int4 (mk_ndarray [1; 2]%nat [1; 16]) = Ok r
    /\ Advanced.i4_scale r = Fin 1
    /\ Advanced.i4_zero_point r = Fin 1
    /\ Spec.unpack (Advanced.i4_packed_weights r) (Advanced.i4_original_size r)
       = [0; 15]%Z
    /\ Mixed.dequantize (Advanced.i4_scale r) (Advanced.i4_zero_point r)
         (Mixed.IntArray [0; 15]%Z)
       = [Fin (-1); Fin 14].
Proof.
  eexists. split; [vm_compute; reflexivity|]. repeat split.
Qed.






(** ** Constant tensors *)




(** C3 at the input the specification names: one hundred zeros.  The code
    sets no unit scale: the scale is 0.0, the zero-point is [nan], and the
    decoded entries are [nan], not 0. *)
Theorem quantize_int8_all_zeros :
  let T := mk_ndarray [100]%nat (repeat 0 100) in
  exists r,
    Advanced.quantize_int8 T = Ok r
    /\ Advanced.i8_scale r = Fin 0
    /\ Advanced.i8_zero_point r = NaN
    /\ Advanced.i8_weights r = repeat 0%Z 100
    /\ Mixed.dequantize (Advanced.i8_scale r) (Advanced.i8_zero_point r)
         (Mixed.IntArray (Advanced.i8_weights r)) = repeat NaN 100
    /\ ~ degenerate_range_guarded T 0.
Proof.
  eexists. split; [vm_compute; reflexivity|].
  cbn [Advanced.i8_scale Advanced.i8_zero_point Advanced.i8_weights].
  repeat split.
  intros (r & Hq & Hs & _). vm_compute in Hq. injection Hq as <-.
  vm_compute in Hs. discriminate Hs.
Qed.

(** ** Block-wise quantization *)

(** C10.  When the tensor has fewer entries than [block_size],
    [quantize_block_wise] is [quantize_int8] on the whole tensor, paired
    with 8: one scale, one zero-point, and never the dictionary of blocks. *)
Theorem block_wise_small_tensor_is_whole_int8 (T : ndarray) (block_size : Z) :
  (Z.of_nat (size T) < block_size)%Z ->
  Advanced.quantize_block_wise T block_size
  = (r <- Advanced.quantize_int8 T ;; Ok (Advanced.WholeTensor r 8))
  /\ (forall blocks,
         Advanced.quantize_block_wise T block_size <> Ok (Advanced.Blocks blocks))
  /\ (flat T <> [] ->
      exists r, Advanced.quantize_int8 T = Ok r
                /\ Advanced.quantize_block_wise T block_size
                   = Ok (Advanced.WholeTensor r 8)).
Proof.
  intros Hlt.
  assert (E : Advanced.quantize_block_wise T block_size
              = (r <- Advanced.quantize_int8 T ;; Ok (Advanced.WholeTensor r 8))).
  { unfold Advanced.quantize_block_wise.
    apply Z.ltb_lt in Hlt. rewrite Hlt. reflexivity. }
  split; [exact E|]. split.
  - intros blocks. rewrite E.
    destruct (Advanced.quantize_int8 T); simpl; discriminate.
  - intros Hne. rewrite E.
    array_bounds Hne.
    unfold Advanced.quantize_int8. rewrite Hlo, Hhi. simpl.
    eexists. split; reflexivity.
Qed.

Lemma block_wise_small_tensor_is_whole_int8_witness :
  exists r,
    Advanced.quantize_int8 (mk_ndarray [3]%nat [1; 2; 3]) = Ok r
    /\ Advanced.quantize_block_wise (mk_ndarray [3]%nat [1; 2; 3]) 128
       = Ok (Advanced.WholeTensor r 8).
Proof.
  apply (block_wise_small_tensor_is_whole_int8 (mk_ndarray [3]%nat [1; 2; 3]) 128).
  - reflexivity.
  - discriminate.
Defined.

Lemma mapM_ok {A B : Type} (f : A -> result B) (g : A -> B) (l : list A) :
  (forall x, In x l -> f x = Ok (g x)) -> mapM f l = Ok (map g l).
Proof.
  induction l as [|x l IH]; intros H; simpl; [reflexivity|].
  rewrite (H x (or_introl eq_refl)). simpl.
  rewrite IH by (intros y Hy; apply H; right; exact Hy).
  reflexivity.
Qed.

Lemma firstn_then_firstn_skipn {A : Type} (l : list A) (a c : nat) :
  firstn a l ++ firstn c (skipn a l) = firstn (a + c) l.
Proof.
  revert l. induction a as [|a IH]; intros l; simpl; [reflexivity|].
  destruct l as [|x l]; simpl.
  - rewrite firstn_nil. reflexivity.
  - f_equal. apply IH.
Qed.

Lemma concat_block_slices (l : list Q) (b k : nat) :
  List.concat (map (block_slice l b) (seq 0 k))
  = firstn (Nat.min (k * b) (List.length l)) l.
Proof.
  induction k as [|k IH].
  - reflexivity.
  - rewrite seq_S, map_app, concat_app, IH. simpl.
    rewrite app_nil_r. unfold block_slice, slice.
    replace (k + 1)%nat with (S k) by lia.
    destruct (Nat.le_gt_cases (List.length l) (k * b)) as [Hge | Hlt].
    + replace (Nat.min (S k * b) (List.length l) - k * b)%nat with 0%nat by lia.
      simpl firstn. rewrite app_nil_r. f_equal. lia.
    + rewrite (Nat.min_l (k * b)) by lia.
      rewrite firstn_then_firstn_skipn. f_equal. lia.
Qed.

Lemma ceil_div_bounds (n b : nat) :
  (0 < b)%nat -> (0 < n)%nat ->
  let k := ((n + b - 1) / b)%nat in
  ((k - 1) * b < n /\ n <= k * b /\ 0 < k)%nat.
Proof.
  intros Hb Hn k.
  pose proof (Nat.div_mod_eq (n + b - 1) b) as E. fold k in E.
  pose proof (Nat.mod_upper_bound (n + b - 1) b ltac:(lia)) as Hr.
  set (r := ((n + b - 1) mod b)%nat) in *. clearbody k r.
  assert (0 < k)%nat by (destruct k; [nia | lia]).
  repeat split; nia.
Qed.

Lemma block_slice_length (l : list Q) (b i : nat) :
  List.length (block_slice l b i)
  = (Nat.min ((i + 1) * b) (List.length l) - i * b)%nat.
Proof.
  unfold block_slice, slice. rewrite length_firstn, length_skipn. lia.
Qed.

Lemma quantize_block_ok (l : list Q) (b i : nat) :
  block_slice l b i <> [] ->
  Advanced.quantize_block l b i = Ok (block_entry l b i).
Proof.
  intros Hne. unfold Advanced.quantize_block, block_entry.
  fold (block_slice l b i).
  array_bounds Hne.
  rewrite Hlo, Hhi. simpl.
  destruct (Advanced.block_params lo hi). reflexivity.
Qed.

Lemma block_entry_encoded (l : list Q) (b i : nat) :
  block_slice l b i <> [] ->
  encoded_block (block_slice l b i)
    (fst (fst (block_entry l b i)))
    (snd (fst (block_entry l b i)))
    (snd (block_entry l b i)).
Proof.
  intros Hne. unfold block_entry, encoded_block.
  array_bounds Hne.
  rewrite Hlo, Hhi. exists lo, hi.
  destruct (Advanced.block_params lo hi) as [s z]. simpl.
  repeat split.
Qed.

Lemma block_entry_length (l : list Q) (b i : nat) :
  List.length (fst (fst (block_entry l b i))) = List.length (block_slice l b i).
Proof.
  unfold block_entry.
  destruct (np_min (block_slice l b i)) as [lo|] eqn:Hlo.
  - destruct (np_max (block_slice l b i)) as [hi|] eqn:Hhi.
    + destruct (Advanced.block_params lo hi). simpl. apply length_map.
    + destruct (block_slice l b i); [reflexivity | discriminate].
  - destruct (block_slice l b i); [reflexivity | discriminate].
Qed.

Lemma length_nonzero_nonempty {A : Type} (l : list A) :
  (0 < List.length l)%nat -> l <> [].
Proof. destruct l; simpl; [lia | discriminate]. Qed.

Lemma num_blocks_Z (n b : nat) :
  (0 < b)%nat ->
  Z.to_nat ((Z.of_nat n + Z.of_nat b - 1) / Z.of_nat b) = num_blocks n b.
Proof.
  intros Hb. unfold num_blocks.
  replace (Z.of_nat n + Z.of_nat b - 1)%Z with (Z.of_nat (n + b - 1)) by lia.
  rewrite <- Nat2Z.inj_div. apply Nat2Z.id.
Qed.

(** The block branch of [quantize_block_wise], for a positive block size
    that does not exceed the entry count. *)
Lemma quantize_block_wise_blocks (T : ndarray) (b : nat) :
  (0 < b)%nat -> (b <= size T)%nat ->
  let rs := map (block_entry (flat T) b) (seq 0 (num_blocks (size T) b)) in
  Advanced.quantize_block_wise T (Z.of_nat b)
  = Ok (Advanced.Blocks
          {| Advanced.b_blocks := map (fun r => fst (fst r)) rs;
             Advanced.b_scales := map (fun r => snd (fst r)) rs;
             Advanced.b_zero_points := map snd rs;
             Advanced.b_shape := shape T;
             Advanced.b_block_size := Z.of_nat b |}).
Proof.
  intros Hb Hle rs. unfold Advanced.quantize_block_wise.
  assert (E1 : (Z.of_nat (size T) <? Z.of_nat b)%Z = false) by (apply Z.ltb_ge; lia).
  assert (E2 : (Z.of_nat b =? 0)%Z = false) by (apply Z.eqb_neq; lia).
  rewrite E1, E2, Nat2Z.id.
  fold (size T). rewrite num_blocks_Z by exact Hb.
  rewrite (mapM_ok _ (block_entry (flat T) b)).
  - reflexivity.
  - intros i Hi. apply in_seq in Hi.
    apply quantize_block_ok, length_nonzero_nonempty.
    rewrite block_slice_length.
    destruct (ceil_div_bounds (size T) b Hb ltac:(lia)) as (H1 & H2 & H3).
    fold (num_blocks (size T) b) in H1, H2, H3. unfold size in *.
    nia.
Qed.

(** C6, from the block size up.  For a block size between 1 and the entry
    count, [quantize_block_wise] cuts the flattened tensor into contiguous
    blocks of exactly [block_size] entries, the last one holding the
    remainder, and encodes each block with its own scale and zero-point;
    three hundred entries with blocks of 128 give blocks of 128, 128 and 44
    entries. *)
Theorem block_wise_partitions_from_block_size (T : ndarray) (block_size : nat) :
  (0 < block_size)%nat -> (block_size <= size T)%nat ->
  block_wise_partitions T block_size
  /\ (size T = 300%nat -> block_size = 128%nat ->
      exists r,
        Advanced.quantize_block_wise T 128 = Ok (Advanced.Blocks r)
        /\ map (@List.length Z) (Advanced.b_blocks r) = [128; 128; 44]%nat).
Proof.
  intros Hb Hle.
  pose proof (quantize_block_wise_blocks T block_size Hb Hle) as Hq.
  cbv zeta in Hq.
  destruct (ceil_div_bounds (size T) block_size Hb ltac:(lia)) as (H1 & H2 & H3).
  fold (num_blocks (size T) block_size) in H1, H2, H3.
  set (k := num_blocks (size T) block_size) in *.
  assert (Hlen : forall i, (i < k)%nat ->
            List.length (block_slice (flat T) block_size i)
            = (if (i + 1 <? k)%nat then block_size
               else size T - (k - 1) * block_size)%nat).
  { intros i Hi. rewrite block_slice_length. fold (size T).
    destruct (i + 1 <? k)%nat eqn:E.
    - apply Nat.ltb_lt in E. nia.
    - apply Nat.ltb_ge in E. assert (i = k - 1)%nat by lia. subst i.
      replace (k - 1 + 1)%nat with k by lia. lia. }
  split.
  - eexists. split; [exact Hq|].
    unfold partitioned_into_blocks. fold k.
    cbn [Advanced.b_blocks Advanced.b_scales Advanced.b_zero_points].
    rewrite !length_map, length_seq.
    split; [reflexivity|]. split; [reflexivity|]. split; [reflexivity|].
    split; [|intros i H; split].
    + rewrite concat_block_slices.
      rewrite Nat.min_r by (unfold size in H2; exact H2).
      apply firstn_all.
    + rewrite map_map.
      rewrite (nth_indep _ [] (fst (fst (block_entry (flat T) block_size 0))))
        by (rewrite length_map, length_seq; exact H).
      rewrite (map_nth (fun x => fst (fst (block_entry (flat T) block_size x)))).
      rewrite seq_nth by exact H. simpl.
      rewrite block_entry_length. apply Hlen, H.
    + assert (Hne : block_slice (flat T) block_size i <> []).
      { apply length_nonzero_nonempty. rewrite (Hlen i H).
        destruct (i + 1 <? k)%nat; lia. }
      pose proof (block_entry_encoded (flat T) block_size i Hne) as He.
      rewrite !map_map.
      rewrite (nth_indep _ [] (fst (fst (block_entry (flat T) block_size 0))))
        by (rewrite length_map, length_seq; exact H).
      rewrite (nth_indep _ NaN (snd (fst (block_entry (flat T) block_size 0))))
        by (rewrite length_map, length_seq; exact H).
      rewrite (nth_indep (map _ _) NaN (snd (block_entry (flat T) block_size 0)))
        by (rewrite length_map, length_seq; exact H).
      rewrite (map_nth (fun x => fst (fst (block_entry (flat T) block_size x)))).
      rewrite (map_nth (fun x => snd (fst (block_entry (flat T) block_size x)))).
      rewrite (map_nth (fun x => snd (block_entry (flat T) block_size x))).
      rewrite seq_nth by exact H. exact He.
  - intros Hn Hbs. subst block_size.
    eexists. split; [exact Hq|].
    cbn [Advanced.b_blocks]. rewrite !map_map.
    assert (Hk : k = 3%nat) by (unfold k, num_blocks; rewrite Hn; reflexivity).
    rewrite Hk. cbn [seq map].
    rewrite !block_entry_length.
    rewrite (Hlen 0%nat), (Hlen 1%nat), (Hlen 2%nat) by lia.
    rewrite Hk, Hn. reflexivity.
Qed.

Lemma block_wise_partitions_from_block_size_witness :
  block_wise_partitions (mk_ndarray [5]%nat [1; 2; 3; 4; 5]) 2.
Proof.
  apply (block_wise_partitions_from_block_size (mk_ndarray [5]%nat [1; 2; 3; 4; 5]) 2);
    unfold size; simpl; lia.
Defined.

(** C6 does not hold below the block size: three entries with blocks
    of four are not cut into one short block, they are quantized as a whole. *)
Lemma block_wise_small_tensor_not_partitioned :
  ~ block_wise_partitions (mk_ndarray [3]%nat [1; 2; 3]) 4.
Proof.
  intros (r & Hq & _). vm_compute in Hq. discriminate Hq.
Qed.

(** ** Packed 4-bit codes *)


Lemma nibble_cases (z : Z) :
  (0 <= z <= 15)%Z ->
  In z [0; 1; 2; 3; 4; 5; 6; 7; 8; 9; 10; 11; 12; 13; 14; 15]%Z.
Proof. intros H. simpl. lia. Qed.

(** A byte built from two nibbles gives them back. *)
Lemma pack_byte_nibbles (high low : Z) :
  (0 <= high <= 15)%Z -> (0 <= low <= 15)%Z ->
  let b := wrap_uint8 (Z.lor (Z.shiftl high 4) low) in
  Z.land b 15 = low /\ Z.shiftr b 4 = high.
Proof.
  intros Hh Hl.
  apply nibble_cases in Hh. apply nibble_cases in Hl.
  simpl in Hh, Hl.
  repeat (destruct Hh as [<- | Hh]); try contradiction;
    repeat (destruct Hl as [<- | Hl]); try contradiction;
    split; reflexivity.
Qed.

Section Pack.

Variable q : list Z.

Lemma pack_step_even (packed : list Z) (j : nat) :
  Advanced.pack_step q packed (2 * j) = set_item packed j (packed_byte q j).
Proof.
  unfold Advanced.pack_step, packed_byte.
  replace (2 * j / 2)%nat with j by (rewrite Nat.mul_comm, Nat.div_mul; lia).
  destruct (2 * j + 1 <? List.length q)%nat eqn:E; [reflexivity|].
  apply Nat.ltb_ge in E. rewrite (nth_overflow q 0%Z E). reflexivity.
Qed.

Lemma set_item_app {A : Type} (l1 l2 : list A) (x v : A) :
  set_item (l1 ++ x :: l2) (List.length l1) v = l1 ++ v :: l2.
Proof. induction l1 as [|y l1 IH]; simpl; [reflexivity | f_equal; exact IH]. Qed.

Lemma half_up_bounds (n j : nat) :
  ((2 * j < n -> j < (n + 1) / 2) /\ (n <= 2 * j -> (n + 1) / 2 <= j))%nat.
Proof.
  pose proof (Nat.div_mod_eq (n + 1) 2).
  pose proof (Nat.mod_upper_bound (n + 1) 2). lia.
Qed.

(** After the bytes below [j] are written, the rest of the loop writes the
    others. *)
Lemma pack_loop_invariant (fuel j : nat) :
  let n := List.length q in
  let m := ((n + 1) / 2)%nat in
  (n <= 2 * j + fuel)%nat -> (j <= m)%nat ->
  fold_left (Advanced.pack_step q) (range_from fuel (2 * j) n 2)
    (map (packed_byte q) (seq 0 j) ++ repeat 0%Z (m - j))
  = map (packed_byte q) (seq 0 m).
Proof.
  intros n m. revert j. induction fuel as [|fuel IH]; intros j Hf Hj.
  - simpl. assert (j = m) by (pose proof (half_up_bounds n j); unfold m in *; lia).
    subst j. rewrite Nat.sub_diag. apply app_nil_r.
  - change (range_from (S fuel) (2 * j) n 2)
      with (if (2 * j <? n)%nat
            then (2 * j)%nat :: range_from fuel (2 * j + 2) n 2 else []).
    destruct (2 * j <? n)%nat eqn:E.
    + apply Nat.ltb_lt in E.
      assert (Hjm : (j < m)%nat) by (apply half_up_bounds; exact E).
      cbn [fold_left]. rewrite pack_step_even.
      replace (m - j)%nat with (S (m - S j)) by lia. cbn [repeat].
      pose proof (set_item_app (map (packed_byte q) (seq 0 j))
                    (repeat 0%Z (m - S j)) 0%Z (packed_byte q j)) as Hs.
      rewrite length_map, length_seq in Hs. rewrite Hs. clear Hs.
      replace (2 * j + 2)%nat with (2 * S j)%nat by lia.
      rewrite <- (IH (S j)) by lia.
      rewrite seq_S, map_app. cbn [map Nat.add]. rewrite <- app_assoc. reflexivity.
    + apply Nat.ltb_ge in E. simpl.
      assert (j = m) by (pose proof (half_up_bounds n j); unfold m in *; lia).
      subst j. rewrite Nat.sub_diag. apply app_nil_r.
Qed.

Lemma pack_bytes :
  Advanced.pack q = map (packed_byte q) (seq 0 ((List.length q + 1) / 2)).
Proof.
  unfold Advanced.pack, range_step.
  pose proof (pack_loop_invariant (List.length q) 0) as H.
  cbv zeta in H. rewrite Nat.sub_0_r in H. apply H; lia.
Qed.

Lemma pack_length : List.length (Advanced.pack q) = ((List.length q + 1) / 2)%nat.
Proof. rewrite pack_bytes, length_map, length_seq. reflexivity. Qed.

Hypothesis nibbles : Forall (fun c => (0 <= c <= 15)%Z) q.

Lemma nth_nibble (i : nat) : (0 <= nth i q 0 <= 15)%Z.
Proof.
  destruct (Nat.lt_ge_cases i (List.length q)) as [H | H].
  - rewrite Forall_forall in nibbles. apply nibbles, nth_In, H.
  - rewrite nth_overflow by exact H. lia.
Qed.

Lemma pack_nth (i : nat) :
  (i < (List.length q + 1) / 2)%nat ->
  Z.land (nth i (Advanced.pack q) 0%Z) 15 = nth (2 * i) q 0%Z
  /\ Z.shiftr (nth i (Advanced.pack q) 0%Z) 4 = nth (2 * i + 1) q 0%Z.
Proof.
  intros Hi. rewrite pack_bytes.
  rewrite (nth_indep _ 0%Z (packed_byte q 0))
    by (rewrite length_map, length_seq; exact Hi).
  rewrite map_nth, seq_nth by exact Hi. cbn [Nat.add].
  unfold packed_byte. apply pack_byte_nibbles; apply nth_nibble.
Qed.

End Pack.

Lemma flat_map_nibbles_length (bs : list Z) :
  List.length (flat_map (fun b => [Z.land b 15; Z.shiftr b 4]) bs)
  = (2 * List.length bs)%nat.
Proof. induction bs as [|b bs IH]; simpl; [reflexivity | rewrite IH; lia]. Qed.

Lemma flat_map_nibbles_nth (bs : list Z) (i : nat) :
  (i < List.length bs)%nat ->
  nth (2 * i) (flat_map (fun b => [Z.land b 15; Z.shiftr b 4]) bs) 0%Z
  = Z.land (nth i bs 0%Z) 15
  /\ nth (2 * i + 1) (flat_map (fun b => [Z.land b 15; Z.shiftr b 4]) bs) 0%Z
     = Z.shiftr (nth i bs 0%Z) 4.
Proof.
  revert i. induction bs as [|b bs IH]; intros i Hi; simpl in Hi; [lia|].
  destruct i as [|i].
  - split; reflexivity.
  - replace (2 * S i)%nat with (S (S (2 * i))) by lia.
    replace (S (S (2 * i)) + 1)%nat with (S (S (2 * i + 1))) by lia.
    cbn [flat_map app nth]. apply IH. lia.
Qed.

(** Reading the nibbles back with the recorded count returns the codes. *)
Lemma unpack_pack (q : list Z) :
  Forall (fun c => (0 <= c <= 15)%Z) q ->
  Spec.unpack (Advanced.pack q) (List.length q) = q.
Proof.
  intros Hq. unfold Spec.unpack.
  pose proof (pack_length q) as Hlen.
  assert (Hm : (List.length q <= 2 * ((List.length q + 1) / 2))%nat).
  { pose proof (Nat.div_mod_eq (List.length q + 1) 2).
    pose proof (Nat.mod_upper_bound (List.length q + 1) 2). lia. }
  apply (nth_ext _ _ 0%Z 0%Z).
  - rewrite length_firstn, flat_map_nibbles_length, Hlen. lia.
  - intros j Hj.
    rewrite length_firstn, flat_map_nibbles_length, Hlen in Hj.
    assert (Hjq : (j < List.length q)%nat) by lia.
    rewrite nth_firstn.
    assert (E : (j <? List.length q)%nat = true) by (apply Nat.ltb_lt; exact Hjq).
    rewrite E.
    assert (Hi : (j / 2 < (List.length q + 1) / 2)%nat).
    { pose proof (Nat.div_mod_eq j 2). pose proof (Nat.mod_upper_bound j 2).
      pose proof (Nat.div_mod_eq (List.length q + 1) 2).
      pose proof (Nat.mod_upper_bound (List.length q + 1) 2). lia. }
    destruct (flat_map_nibbles_nth (Advanced.pack q) (j / 2)) as [H0 H1];
      [rewrite Hlen; exact Hi|].
    destruct (pack_nth q Hq (j / 2) Hi) as [P0 P1].
    pose proof (Nat.div_mod_eq j 2) as Ej.
    pose proof (Nat.mod_upper_bound j 2 ltac:(lia)) as Hr.
    destruct (j mod 2)%nat as [|[|r]] eqn:Er; [| |lia].
    + replace j with (2 * (j / 2))%nat at 1 by lia.
      rewrite H0, P0. f_equal. lia.
    + replace j with (2 * (j / 2) + 1)%nat at 1 by lia.
      rewrite H1, P1. f_equal. lia.
Qed.



(** ** Scheme selection *)

(** C5, script by script.  In [mixed_precision_quantization] the scheme of
    a float32 tensor is a function of its rank and element count alone, and
    it is the ordered policy of the specification with an empty critical
    set and the default mode; the name is not consulted.  The critical names are
    used by [quantize_mixed_precision] only, which picks Int8Linear for a
    critical name and Int4Packed for any other, whatever the element count. *)
Theorem mixed_precision_selection (name : string) (p : param) :
  p_dtype p = float32 ->
  Spec.scheme_of_strategy (Mixed.strategy p)
  = Spec.select (fun _ => false) Spec.Default name (shape (p_array p)) (numel p)
  /\ (forall q, p_dtype q = p_dtype p -> rank q = rank p -> numel q = numel p ->
                Mixed.strategy q = Mixed.strategy p)
  /\ (forall r, Advanced.quantize_mixed_precision (p_array p) name = Ok r ->
                Spec.scheme_of_mixed r
                = if Advanced.is_critical name
                  then Spec.Int8Linear else Spec.Int4Packed).
Proof.
  intros Hd. split; [|split].
  - unfold Mixed.strategy, Spec.select, rank. rewrite Hd. cbn [is_float32].
    destruct (numel p <=? 1)%Z eqn:E1.
    + apply Z.leb_le in E1.
      assert (E2 : (1000 <? numel p)%Z = false) by (apply Z.ltb_ge; lia).
      assert (E3 : (1 <? numel p)%Z = false) by (apply Z.ltb_ge; lia).
      rewrite E2, E3, andb_false_r. reflexivity.
    + apply Z.leb_gt in E1.
      assert (E3 : (1 <? numel p)%Z = true) by (apply Z.ltb_lt; lia).
      rewrite E3.
      destruct (List.length (shape (p_array p)) <? 2)%nat eqn:E4.
      * apply Nat.ltb_lt in E4.
        assert (E5 : (2 <=? List.length (shape (p_array p)))%nat = false)
          by (apply Nat.leb_gt; lia).
        rewrite E5. reflexivity.
      * apply Nat.ltb_ge in E4.
        assert (E5 : (2 <=? List.length (shape (p_array p)))%nat = true)
          by (apply Nat.leb_le; lia).
        rewrite E5, andb_true_r. cbn [andb].
        destruct (1000 <? numel p)%Z; reflexivity.
  - intros q Hq Hr Hn. unfold Mixed.strategy. rewrite Hq, Hr, Hn. reflexivity.
  - intros r. unfold Advanced.quantize_mixed_precision.
    destruct (Advanced.is_critical name).
    + destruct (Advanced.quantize_int8 (p_array p)); simpl; [|discriminate].
      intros [= <-]. reflexivity.
    + destruct (Advanced.quantize_int4 (p_array p)); simpl; [|discriminate].
      intros [= <-]. reflexivity.
Qed.

Lemma mixed_precision_selection_witness :
  Spec.scheme_of_strategy
    (Mixed.strategy (mk_param float32 (mk_ndarray [2; 2]%nat [0; 1; 2; 3])))
  = Spec.select (fun _ => false) Spec.Default "decoder.ln.weight"
      [2; 2]%nat 4.
Proof.
  apply (mixed_precision_selection "decoder.ln.weight"
           (mk_param float32 (mk_ndarray [2; 2]%nat [0; 1; 2; 3]))).
  reflexivity.
Defined.

(** C5 does not hold for a critical name on a small matrix: the policy
    of the specification with the critical names of the code gives
    Int8Linear for a 10 x 10 tensor named [encoder.conv1.weight], where
    [mixed_precision_quantization] converts it to float16; and for a
    non-critical 10 x 10 tensor the policy gives Float16 where
    [quantize_mixed_precision] packs 4-bit codes. *)
Lemma critical_small_matrix_selection :
  let p := mk_param float32 (mk_ndarray [10; 10]%nat (repeat 0 99 ++ [1])) in
  Spec.select Advanced.is_critical Spec.Default "encoder.conv1.weight"
    (shape (p_array p)) (numel p) = Spec.Int8Linear
  /\ Spec.scheme_of_strategy (Mixed.strategy p) = Spec.Float16
  /\ Spec.select Advanced.is_critical Spec.Default "encoder.blocks.0.mlp.0.weight"
       (shape (p_array p)) (numel p) = Spec.Float16
  /\ exists r,
       Advanced.quantize_mixed_precision (p_array p) "encoder.blocks.0.mlp.0.weight"
       = Ok r
       /\ Spec.scheme_of_mixed r = Spec.Int4Packed.
Proof.
  repeat split; try (vm_compute; reflexivity).
  eexists. split; [vm_compute; reflexivity | reflexivity].
Qed.

(** ** Accounted sizes *)

Lemma quantize_int8_ok (T : ndarray) :
  flat T <> [] ->
  exists r, Advanced.quantize_int8 T = Ok r
            /\ List.length (Advanced.i8_weights r) = size T.
Proof.
  intros Hne.
  array_bounds Hne.
  unfold Advanced.quantize_int8. rewrite Hlo, Hhi. simpl.
  eexists. split; [reflexivity|]. simpl. apply length_map.
Qed.

Lemma quantize_int4_ok (T : ndarray) :
  flat T <> [] ->
  exists r, Advanced.quantize_int4 T = Ok r
            /\ List.length (Advanced.i4_packed_weights r) = ((size T + 1) / 2)%nat.
Proof.
  intros Hne.
  array_bounds Hne.
  unfold Advanced.quantize_int4. rewrite Hlo, Hhi. simpl bind.
  eexists. split; [reflexivity|].
  cbn [Advanced.i4_packed_weights].
  rewrite pack_length, length_map. reflexivity.
Qed.

(** C7, per script.  For a float32 tensor of rank at least 2 with [N]
    entries, [advanced_quantization] accounts exactly [N + 16] bytes under
    int8 and [(N + 1) // 2 + 16] bytes under int4, against [4 N] original
    bytes, and so does [mixed_precision_quantization] for the int8 payload
    of a tensor of more than 1000 entries; [quantize_weights_to_int8]
    accounts [N + 8] bytes for the same int8 payload. *)
Theorem accounted_quantized_sizes (itemsize : Z) (name : string) (p : param) :
  p_dtype p = float32 -> (2 <= rank p)%nat -> flat (p_array p) <> [] ->
  let N := numel p in
  (exists d, Advanced.advanced_entry itemsize Advanced.int8 name p
             = Ok (d, (N * 4)%Z, (N + 16)%Z))
  /\ (exists d, Advanced.advanced_entry itemsize Advanced.int4 name p
                = Ok (d, (N * 4)%Z, ((N + 1) / 2 + 16)%Z))
  /\ (forall half, (1000 < N)%Z ->
        exists e, Mixed.quantize_param half p = Ok (e, (N * 4)%Z, (N + 16)%Z))
  /\ (exists d, Proper.quantize_param p = Ok (d, (N * 4)%Z, (N + 8)%Z)).
Proof.
  intros Hd Hr Hne N.
  assert (Hcond : is_float32 (p_dtype p) && (2 <=? rank p)%nat = true).
  { rewrite Hd. apply Nat.leb_le in Hr. rewrite Hr. reflexivity. }
  assert (Hbytes : Advanced.nbytes p = (N * 4)%Z).
  { unfold Advanced.nbytes. rewrite Hd. reflexivity. }
  split; [|split; [|split]].
  - destruct (quantize_int8_ok _ Hne) as (r & Hq & Hlen).
    unfold Advanced.advanced_entry. rewrite Hcond, Hq. simpl bind.
    eexists. rewrite Hbytes. unfold Advanced.nbytes8. rewrite Hlen. reflexivity.
  - destruct (quantize_int4_ok _ Hne) as (r & Hq & Hlen).
    unfold Advanced.advanced_entry. rewrite Hcond, Hq. simpl bind.
    eexists. rewrite Hbytes. unfold Advanced.nbytes8. rewrite Hlen.
    do 3 f_equal. unfold N, numel.
    rewrite Nat2Z.inj_div, Nat2Z.inj_add. reflexivity.
  - intros half HN.
    array_bounds Hne.
    unfold Mixed.quantize_param, Mixed.strategy.
    apply Nat.leb_le in Hr. apply Z.ltb_lt in HN. fold N.
    rewrite Hd, Hr, HN, Hlo, Hhi. cbn [is_float32 andb of_option bind element_size].
    eexists. unfold Advanced.nbytes8. rewrite length_map. reflexivity.
  - array_bounds Hne.
    unfold Proper.quantize_param. rewrite Hcond, Hlo, Hhi. simpl bind.
    eexists. rewrite Hbytes. unfold Advanced.nbytes8. rewrite length_map.
    reflexivity.
Qed.

Lemma accounted_quantized_sizes_witness :
  let p := mk_param float32 (mk_ndarray [1; 3]%nat [1; 2; 3]) in
  (exists d, Advanced.advanced_entry 8 Advanced.int8 "w" p = Ok (d, 12, 19)%Z)
  /\ (exists d, Advanced.advanced_entry 8 Advanced.int4 "w" p = Ok (d, 12, 18)%Z)
  /\ (exists d, Proper.quantize_param p = Ok (d, 12, 11)%Z).
Proof.
  destruct (accounted_quantized_sizes 8 "w"
              (mk_param float32 (mk_ndarray [1; 3]%nat [1; 2; 3])))
    as (H8 & H4 & _ & HP).
  - reflexivity.
  - unfold rank. simpl. lia.
  - simpl. discriminate.
  - exact (conj H8 (conj H4 HP)).
Defined.

(** The caller of [quantize_block_wise] in [advanced_quantization] indexes
    the result as the dictionary of blocks: on the pair returned for a small
    tensor it raises [TypeError]. *)
Lemma advanced_block_method_small_tensor_raises
  (itemsize : Z) (name : string) (p : param) :
  p_dtype p = float32 -> (2 <= rank p)%nat -> flat (p_array p) <> [] ->
  (numel p < 128)%Z ->
  Advanced.advanced_entry itemsize Advanced.block name p = Raise TypeError.
Proof.
  intros Hd Hr Hne Hn.
  destruct (quantize_int8_ok _ Hne) as (r & Hq & _).
  unfold Advanced.advanced_entry, Advanced.quantize_block_wise.
  apply Nat.leb_le in Hr. unfold numel in Hn. apply Z.ltb_lt in Hn.
  rewrite Hd, Hr, Hn, Hq. reflexivity.
Qed.

(** C7 does not hold in [quantize_weights_to_int8]: the overhead it
    adds to the [N] payload bytes is 8, not 16. *)
Lemma proper_int8_overhead_is_8 :
  let p := mk_param float32 (mk_ndarray [1; 3]%nat [1; 2; 3]) in
  exists d quantized_size,
    Proper.quantize_param p = Ok (d, 12%Z, quantized_size)
    /\ quantized_size = (numel p + 8)%Z
    /\ quantized_size <> (numel p + 16)%Z.
Proof.
  eexists. eexists. split; [vm_compute; reflexivity|].
  split; [reflexivity | discriminate].
Qed.

(** ** Loading *)

Lemma read_nonneg (n : Z) (f : list byte) :
  (0 <= n)%Z ->
  Real.read n f = Ok (firstn (Z.to_nat n) f, skipn (Z.to_nat n) f).
Proof.
  intros H. unfold Real.read.
  assert (E1 : (n <? -1)%Z = false) by (apply Z.ltb_ge; lia).
  assert (E2 : (n =? -1)%Z = false) by (apply Z.eqb_neq; lia).
  rewrite E1, E2. reflexivity.
Qed.



Section Loading.

Variable unpack_d : list byte -> npfloat.
Variable unpack_h : list byte -> npfloat.

Variable tag : string.
Hypothesis not_int8 : tag <> "int8"%string.
Hypothesis not_float16 : tag <> "float16"%string.



End Loading.




(** ** Compression figures *)

Lemma fold_left_add_init (l : list Z) (a : Z) :
  fold_left Z.add l a = (a + fold_left Z.add l 0)%Z.
Proof.
  revert a. induction l as [|x l IH]; intros a; simpl.
  - lia.
  - rewrite IH, (IH x). lia.
Qed.



Lemma true_div_ok (a b : Z) :
  b <> 0%Z ->
  exists q, Advanced.true_div a b = Ok q /\ q == inject_Z a / inject_Z b.
Proof.
  intros Hb. unfold Advanced.true_div.
  apply Z.eqb_neq in Hb. rewrite Hb.
  eexists. split; [reflexivity | apply Qred_correct].
Qed.





(** * Further properties of the scripts *)

(** ** Order and end points of the codes *)






Section Int4.

Variables lo hi : Q.
Hypothesis range : lo < hi.



End Int4.



(** ** What the packed bytes determine *)

Lemma packed_byte_app_zero (q : list Z) (j : nat) :
  packed_byte (q ++ [0%Z]) j = packed_byte q j.
Proof.
  assert (H : forall i, nth i (q ++ [0%Z]) 0%Z = nth i q 0%Z).
  { intros i. destruct (Nat.lt_ge_cases i (List.length q)) as [Hi | Hi].
    - apply app_nth1, Hi.
    - rewrite app_nth2 by exact Hi. rewrite (nth_overflow q) by exact Hi.
      destruct (i - List.length q)%nat as [|[|k]]; reflexivity. }
  unfold packed_byte. rewrite !H. reflexivity.
Qed.

(** X3.  The bytes written by the packing loop of [quantize_int4] determine
    the codes once their number is known: two code arrays of the same size
    with the same bytes are equal.  The number is needed: an array of odd
    size and the same array followed by a code 0 are packed into the same
    bytes. *)
Theorem pack_determines_codes_up_to_count (q1 q2 : list Z) :
  Forall (fun c => (0 <= c <= 15)%Z) q1 ->
  Forall (fun c => (0 <= c <= 15)%Z) q2 ->
  (List.length q1 = List.length q2 -> Advanced.pack q1 = Advanced.pack q2 ->
   q1 = q2)
  /\ (Nat.odd (List.length q1) = true ->
      Advanced.pack (q1 ++ [0%Z]) = Advanced.pack q1).
Proof.
  intros H1 H2. split.
  - intros Hlen Hp.
    rewrite <- (unpack_pack q1 H1), <- (unpack_pack q2 H2), Hlen, Hp.
    reflexivity.
  - intros Hodd. rewrite !pack_bytes, length_app. cbn [List.length].
    apply Nat.odd_spec in Hodd. destruct Hodd as [k Hk].
    replace ((List.length q1 + 1 + 1) / 2)%nat with ((List.length q1 + 1) / 2)%nat.
    + apply map_ext. intros j. apply packed_byte_app_zero.
    + pose proof (Nat.div_mod_eq (List.length q1 + 1) 2).
      pose proof (Nat.mod_upper_bound (List.length q1 + 1) 2).
      pose proof (Nat.div_mod_eq (List.length q1 + 1 + 1) 2).
      pose proof (Nat.mod_upper_bound (List.length q1 + 1 + 1) 2).
      lia.
Qed.

Lemma pack_determines_codes_up_to_count_witness :
  (List.length [1; 15; 7]%Z = List.length [1; 15; 7]%Z ->
   Advanced.pack [1; 15; 7]%Z = Advanced.pack [1; 15; 7]%Z ->
   [1; 15; 7]%Z = [1; 15; 7]%Z)
  /\ (Nat.odd (List.length [1; 15; 7]%Z) = true ->
      Advanced.pack ([1; 15; 7]%Z ++ [0%Z]) = Advanced.pack [1; 15; 7]%Z).
Proof.
  apply (pack_determines_codes_up_to_count [1; 15; 7]%Z [1; 15; 7]%Z);
    repeat constructor; lia.
Defined.

(** ** Blocks, one by one *)












(** ** Block sizes that are not positive, and empty tensors *)

(** X6.  [quantize_block_wise] with a block size of 0 raises
    [ZeroDivisionError] on every tensor; with a negative block size it
    raises nothing on a tensor of two entries or more and returns a
    dictionary without any block; with a positive block size it raises
    [ValueError] on an empty tensor. *)
Theorem quantize_block_wise_edge_sizes (T : ndarray) :
  Advanced.quantize_block_wise T 0 = Raise ZeroDivisionError
  /\ (forall block_size,
         (block_size < 0)%Z -> (2 <= size T)%nat ->
         Advanced.quantize_block_wise T block_size
         = Ok (Advanced.Blocks
                 {| Advanced.b_blocks := [];
                    Advanced.b_scales := [];
                    Advanced.b_zero_points := [];
                    Advanced.b_shape := shape T;
                    Advanced.b_block_size := block_size |}))
  /\ (forall block_size,
         (0 < block_size)%Z -> flat T = [] ->
         Advanced.quantize_block_wise T block_size = Raise ValueError).
Proof.
  split; [|split].
  - unfold Advanced.quantize_block_wise.
    assert (E : (Z.of_nat (size T) <? 0)%Z = false) by (apply Z.ltb_ge; lia).
    rewrite E. reflexivity.
  - intros b Hb Hn. unfold Advanced.quantize_block_wise.
    assert (E1 : (Z.of_nat (size T) <? b)%Z = false) by (apply Z.ltb_ge; lia).
    assert (E2 : (b =? 0)%Z = false) by (apply Z.eqb_neq; lia).
    rewrite E1, E2. fold (size T).
    assert (E3 : Z.to_nat ((Z.of_nat (size T) + b - 1) / b) = 0%nat).
    { assert (H : ((Z.of_nat (size T) + b - 1) / b <= 0)%Z).
      { pose proof (Z.div_mod (Z.of_nat (size T) + b - 1) b ltac:(lia)) as Hd.
        pose proof (Z.mod_neg_bound (Z.of_nat (size T) + b - 1) b Hb) as Hm.
        nia. }
      lia. }
    rewrite E3. reflexivity.
  - intros b Hb Hempty. unfold Advanced.quantize_block_wise, size.
    rewrite Hempty. cbn [List.length Z.of_nat].
    apply Z.ltb_lt in Hb. rewrite Hb.
    unfold Advanced.quantize_int8. rewrite Hempty. reflexivity.
Qed.

(** ** Sizes accounted by [advanced_quantization] *)


Lemma concat_map_map {A B : Type} (f : A -> B) (ls : list (list A)) :
  List.length (List.concat (map (map f) ls)) = List.length (List.concat ls).
Proof.
  induction ls as [|l ls IH]; [reflexivity|].
  cbn [map List.concat]. rewrite !length_app, length_map, IH. reflexivity.
Qed.

Lemma block_entry_codes (l : list Q) (b i : nat) :
  block_slice l b i <> [] ->
  exists s z,
    fst (fst (block_entry l b i)) = map (Advanced.int8_code s z) (block_slice l b i).
Proof.
  intros Hne. unfold block_entry. array_bounds Hne. rewrite Hlo, Hhi.
  destruct (Advanced.block_params lo hi) as [s z]. exists s, z. reflexivity.
Qed.




(** X8.  The size accounted for a quantized tensor can exceed the original
    size: for a float32 tensor of rank at least 2 with [N] entries, the int8
    accounting of [advanced_quantization] is no larger than the original
    exactly when [N >= 6], its int4 accounting exactly when [N >= 5], and
    the accounting of [quantize_weights_to_int8] exactly when [N >= 3]. *)
Theorem accounted_size_saves_from (itemsize : Z) (name : string) (p : param) :
  p_dtype p = float32 -> (2 <= rank p)%nat -> flat (p_array p) <> [] ->
  (exists d original quantized,
      Advanced.advanced_entry itemsize Advanced.int8 name p
      = Ok (d, original, quantized)
      /\ ((quantized <= original)%Z <-> (6 <= numel p)%Z))
  /\ (exists d original quantized,
         Advanced.advanced_entry itemsize Advanced.int4 name p
         = Ok (d, original, quantized)
         /\ ((quantized <= original)%Z <-> (5 <= numel p)%Z))
  /\ (exists d original quantized,
         Proper.quantize_param p = Ok (d, original, quantized)
         /\ ((quantized <= original)%Z <-> (3 <= numel p)%Z)).
Proof.
  intros Hd Hr Hne.
  assert (Hcond : is_float32 (p_dtype p) && (2 <=? rank p)%nat = true).
  { rewrite Hd. apply Nat.leb_le in Hr. rewrite Hr. reflexivity. }
  assert (Hbytes : Advanced.nbytes p = (numel p * 4)%Z).
  { unfold Advanced.nbytes. rewrite Hd. reflexivity. }
  split; [|split].
  - destruct (quantize_int8_ok _ Hne) as (r & Hq & Hlen).
    unfold Advanced.advanced_entry. rewrite Hcond, Hq. cbn [bind].
    do 3 eexists. split; [reflexivity|].
    rewrite Hbytes. unfold Advanced.nbytes8. rewrite Hlen.
    unfold numel. lia.
  - destruct (quantize_int4_ok _ Hne) as (r & Hq & Hlen).
    unfold Advanced.advanced_entry. rewrite Hcond, Hq. cbn [bind].
    do 3 eexists. split; [reflexivity|].
    rewrite Hbytes. unfold Advanced.nbytes8. rewrite Hlen.
    unfold numel.
    pose proof (Nat.div_mod_eq (size (p_array p) + 1) 2).
    pose proof (Nat.mod_upper_bound (size (p_array p) + 1) 2).
    lia.
  - array_bounds Hne.
    unfold Proper.quantize_param. rewrite Hcond, Hlo, Hhi. cbn [of_option bind].
    do 3 eexists. split; [reflexivity|].
    rewrite Hbytes. unfold Advanced.nbytes8. rewrite length_map.
    unfold numel, size. lia.
Qed.

Lemma accounted_size_saves_from_witness :
  let p := mk_param float32 (mk_ndarray [2; 2]%nat [0; 1; 2; 3]) in
  exists d original quantized,
    Advanced.advanced_entry 8 Advanced.int8 "w" p = Ok (d, original, quantized)
    /\ ((quantized <= original)%Z <-> (6 <= numel p)%Z).
Proof.
  apply (accounted_size_saves_from 8 "w"
           (mk_param float32 (mk_ndarray [2; 2]%nat [0; 1; 2; 3]))).
  - reflexivity.
  - unfold rank. simpl. lia.
  - simpl. discriminate.
Defined.

(** ** The mixed precision pass *)

Section MixedPass.

Variable half : Q -> npfloat.

(** The loop body never raises, and never accounts more than the original
    size. *)
Lemma mixed_quantize_param_ok (p : param) :
  exists entry quantized,
    Mixed.quantize_param half p
    = Ok (entry, (numel p * element_size (p_dtype p))%Z, quantized)
    /\ (0 <= quantized <= numel p * element_size (p_dtype p))%Z.
Proof.
  assert (Hn : (0 <= numel p)%Z) by (unfold numel; lia).
  assert (He : (0 < element_size (p_dtype p))%Z) by (destruct (p_dtype p); simpl; lia).
  unfold Mixed.quantize_param.
  destruct (Mixed.strategy p) eqn:Hs.
  - unfold Mixed.strategy in Hs.
    destruct (is_float32 (p_dtype p)) eqn:Hf; [|discriminate].
    destruct ((2 <=? rank p)%nat && (1000 <? numel p)%Z) eqn:Hc;
      [|destruct (1 <? numel p)%Z; discriminate].
    apply andb_true_iff in Hc. destruct Hc as [_ Hc]. apply Z.ltb_lt in Hc.
    assert (Hne : flat (p_array p) <> []).
    { intros E. unfold numel, size in Hc. rewrite E in Hc. simpl in Hc. lia. }
    array_bounds Hne. rewrite Hlo, Hhi. cbn [of_option bind].
    do 2 eexists. split; [reflexivity|].
    unfold Advanced.nbytes8. rewrite length_map. fold (size (p_array p)).
    fold (numel p). destruct (p_dtype p); try discriminate. simpl. lia.
  - do 2 eexists. split; [reflexivity|].
    unfold Mixed.strategy in Hs.
    destruct (is_float32 (p_dtype p)) eqn:Hf; [|discriminate].
    destruct (p_dtype p); try discriminate. simpl. lia.
  - do 2 eexists. split; [reflexivity|]. nia.
Qed.

Lemma mixed_loop_ok (sd : state_dict) :
  forall quantized_state st,
  exists entries st',
    MixedRun.loop half sd quantized_state st = Ok (quantized_state ++ entries, st')
    /\ map fst entries = map fst sd
    /\ Forall2 (fun e kv => exists o q,
                  Mixed.quantize_param half (snd kv) = Ok (snd e, o, q))
         entries sd
    /\ MixedRun.total_original_size st'
       = (MixedRun.total_original_size st
          + sumZ_of (fun kv => numel (snd kv) * element_size (p_dtype (snd kv))) sd)%Z
    /\ (0 <= MixedRun.total_quantized_size st' - MixedRun.total_quantized_size st
        <= MixedRun.total_original_size st' - MixedRun.total_original_size st)%Z
    /\ (MixedRun.int8_count st' + MixedRun.float16_count st'
        + MixedRun.unchanged_count st'
        = MixedRun.int8_count st + MixedRun.float16_count st
          + MixedRun.unchanged_count st + Z.of_nat (List.length sd))%Z.
Proof.
  induction sd as [|[name p] sd IH]; intros qs st.
  - exists [], st. cbn [MixedRun.loop]. rewrite app_nil_r.
    split; [reflexivity|]. split; [reflexivity|]. split; [constructor|].
    unfold sumZ_of. simpl. repeat split; lia.
  - cbn [MixedRun.loop].
    destruct (mixed_quantize_param_ok p) as (entry & q & Hq & Hb).
    rewrite Hq. cbn [bind].
    destruct (IH (qs ++ [(name, entry)])
                 (MixedRun.add_sizes (numel p * element_size (p_dtype p)) q
                    (MixedRun.count (Mixed.strategy p) st)))
      as (entries & st' & Hl & Hn & Hf & Ho & Hqs & Hc).
    exists ((name, entry) :: entries), st'.
    rewrite Hl, <- app_assoc. split; [reflexivity|].
    split; [cbn [map fst]; rewrite Hn; reflexivity|].
    split.
    { constructor; [|exact Hf]. exists (numel p * element_size (p_dtype p))%Z, q.
      exact Hq. }
    assert (Hsum : sumZ_of (fun kv => (numel (snd kv) * element_size (p_dtype (snd kv)))%Z)
                     ((name, p) :: sd)
                   = (numel p * element_size (p_dtype p)
                      + sumZ_of (fun kv => (numel (snd kv)
                                            * element_size (p_dtype (snd kv)))%Z) sd)%Z).
    { unfold sumZ_of. cbn [map fold_left snd].
      rewrite fold_left_add_init. lia. }
    rewrite Hsum.
    destruct (Mixed.strategy p);
      cbn [MixedRun.add_sizes MixedRun.count MixedRun.total_original_size
           MixedRun.total_quantized_size MixedRun.int8_count
           MixedRun.float16_count MixedRun.unchanged_count] in Ho, Hqs, Hc;
      cbn [List.length]; repeat split; lia.
Qed.

End MixedPass.

(** X9.  [mixed_precision_quantization] visits every parameter without
    raising: it stores one entry per parameter under the same name and in
    the same order, its three counters add up to the number of parameters,
    and the size it accounts never exceeds the original size.  It raises
    [ZeroDivisionError] exactly when the accounted total is zero (an empty
    state dictionary for instance); otherwise the ratio it prints is at least
    1. *)
Theorem mixed_precision_quantization_totals (half : Q -> npfloat) (sd : state_dict) :
  exists quantized_state st,
    MixedRun.loop half sd [] MixedRun.initial = Ok (quantized_state, st)
    /\ map fst quantized_state = map fst sd
    /\ (MixedRun.int8_count st + MixedRun.float16_count st
        + MixedRun.unchanged_count st = Z.of_nat (List.length sd))%Z
    /\ MixedRun.total_original_size st
       = sumZ_of (fun kv => (numel (snd kv) * element_size (p_dtype (snd kv)))%Z) sd
    /\ (0 <= MixedRun.total_quantized_size st <= MixedRun.total_original_size st)%Z
    /\ (MixedRun.total_quantized_size st = 0%Z ->
        MixedRun.mixed_precision_quantization half sd = Raise ZeroDivisionError)
    /\ (MixedRun.total_quantized_size st <> 0%Z ->
        exists s,
          MixedRun.mixed_precision_quantization half sd
          = Ok (quantized_state, st, s)
          /\ 1 <= MixedRun.overall_compression s
          /\ 0 <= MixedRun.savings_mb s).
Proof.
  destruct (mixed_loop_ok half sd [] MixedRun.initial)
    as (entries & st & Hl & Hn & _ & Ho & Hq & Hc).
  cbn [app MixedRun.initial MixedRun.total_original_size
       MixedRun.total_quantized_size MixedRun.int8_count MixedRun.float16_count
       MixedRun.unchanged_count] in Hl, Ho, Hq, Hc.
  exists entries, st. split; [exact Hl|]. split; [exact Hn|].
  split; [lia|]. split; [lia|]. split; [lia|]. split.
  - intros Hz. unfold MixedRun.mixed_precision_quantization. rewrite Hl.
    cbn [bind snd]. unfold MixedRun.summary, Advanced.true_div.
    rewrite Hz. reflexivity.
  - intros Hnz. unfold MixedRun.mixed_precision_quantization. rewrite Hl.
    cbn [bind snd fst]. unfold MixedRun.summary.
    destruct (true_div_ok (MixedRun.total_original_size st)
                (MixedRun.total_quantized_size st) Hnz) as (c & Hcdiv & Ec).
    assert (Honz : MixedRun.total_original_size st <> 0%Z) by lia.
    destruct (true_div_ok (MixedRun.total_quantized_size st)
                (MixedRun.total_original_size st) Honz) as (r & Hrdiv & Er).
    rewrite Hcdiv, Hrdiv. cbn [bind].
    eexists. split; [reflexivity|].
    cbn [MixedRun.overall_compression MixedRun.savings_mb].
    split.
    + rewrite Ec. apply Qle_shift_div_l.
      * change 0 with (inject_Z 0). rewrite <- Zlt_Qlt. lia.
      * rewrite Qmult_1_l, <- Zle_Qle. lia.
    + rewrite Qred_correct. apply Qle_shift_div_l; [reflexivity|].
      rewrite Qmult_0_l. change 0 with (inject_Z 0). rewrite <- Zle_Qle. lia.
Qed.




Section MixedRoundTrip.

Variable half : Q -> npfloat.




End MixedRoundTrip.


(** ** The int8 pass of [whisper_proper_quantization.py] and its loader *)






(** ** Parameter files: written, then read *)

Lemma byte_val_of_Z (z : Z) : Real.byte_val (RealWrite.byte_of_Z z) = (z mod 256)%Z.
Proof.
  unfold Real.byte_val, RealWrite.byte_of_Z.
  pose proof (Z.mod_pos_bound z 256 ltac:(lia)) as Hb.
  destruct (Byte.of_N (Z.to_N (z mod 256))) as [b|] eqn:E.
  - apply Byte.to_of_N in E. rewrite E. apply Z2N.id. lia.
  - apply Byte.of_N_None_iff in E. lia.
Qed.

Lemma int8_of_byte_of_Z (c : Z) :
  (-128 <= c <= 127)%Z -> Real.int8_of_byte (RealWrite.byte_of_Z c) = c.
Proof.
  intros H. unfold Real.int8_of_byte. rewrite byte_val_of_Z.
  unfold wrap_int8.
  replace ((c mod 256 + 128) mod 256)%Z with ((c + 128) mod 256)%Z
    by (rewrite Zplus_mod_idemp_l; reflexivity).
  rewrite Z.mod_small by lia. lia.
Qed.

Lemma astype_int8_range (a : npfloat) : (-128 <= astype_int8 a <= 127)%Z.
Proof.
  unfold astype_int8. destruct a; try lia.
  destruct (in_int32 (trunc q)); [|lia].
  unfold wrap_int8.
  pose proof (Z.mod_pos_bound (trunc q + 128) 256 ltac:(lia)). lia.
Qed.

Lemma unpack_pack_i (n : Z) :
  (0 <= n <= 2147483647)%Z ->
  exists bs, RealWrite.pack_i n = Ok bs
             /\ List.length bs = 4%nat
             /\ Real.unpack_i bs = Ok n.
Proof.
  intros Hn. unfold RealWrite.pack_i.
  assert (E : ((- 2147483648 <=? n) && (n <=? 2147483647))%Z = true).
  { apply andb_true_iff. split; apply Z.leb_le; lia. }
  rewrite E. eexists. split; [reflexivity|]. split; [reflexivity|].
  unfold Real.unpack_i. cbn [List.length Nat.eqb Real.le_unsigned].
  rewrite !byte_val_of_Z. f_equal.
  assert (Hsum : (n mod 256
                  + 256 * ((n / 256) mod 256
                           + 256 * ((n / 65536) mod 256
                                    + 256 * ((n / 16777216) mod 256 + 256 * 0)))
                  = n)%Z).
  { Z.div_mod_to_equations. lia. }
  rewrite Hsum. unfold Real.wrap_signed.
  change (2 ^ (32 - 1))%Z with 2147483648%Z. change (2 ^ 32)%Z with 4294967296%Z.
  rewrite Z.mod_small by lia. lia.
Qed.

Lemma read_exact (n : Z) (a b : list byte) :
  Z.of_nat (List.length a) = n ->
  Real.read n (a ++ b) = Ok (a, b).
Proof.
  intros H. rewrite read_nonneg by lia.
  rewrite <- H, Nat2Z.id.
  rewrite firstn_app, Nat.sub_diag, firstn_all, firstn_O, app_nil_r.
  rewrite skipn_app, Nat.sub_diag, skipn_all, skipn_O. reflexivity.
Qed.

Lemma read_dims_written (dims : list nat) (rest : list byte) :
  Forall (fun d => (Z.of_nat d <= 2147483647)%Z) dims ->
  exists bss,
    mapM (fun dim => RealWrite.pack_i (Z.of_nat dim)) dims = Ok bss
    /\ List.length (List.concat bss) = (4 * List.length dims)%nat
    /\ Real.read_dims (List.length dims) (List.concat bss ++ rest)
       = Ok (map Z.of_nat dims, rest).
Proof.
  induction dims as [|d dims IH]; intros H.
  - exists []. repeat split.
  - inversion H as [|? ? Hd Hds]; subst.
    destruct (unpack_pack_i (Z.of_nat d) ltac:(lia)) as (bs & Hp & Hlen & Hu).
    destruct (IH Hds) as (bss & Hm & Hl & Hr).
    exists (bs :: bss). cbn [mapM]. rewrite Hp. cbn [bind]. rewrite Hm. cbn [bind].
    split; [reflexivity|]. split.
    + cbn [List.concat List.length]. rewrite length_app, Hl, Hlen. lia.
    + cbn [List.length Real.read_dims List.concat]. rewrite <- app_assoc.
      rewrite read_exact by (rewrite Hlen; reflexivity).
      cbn [bind fst snd]. rewrite Hu. cbn [bind]. rewrite Hr. reflexivity.
Qed.

Lemma wrap_signed_small (z : Z) :
  (- 2 ^ 63 <= z < 2 ^ 63)%Z -> Real.wrap_signed 64 z = z.
Proof.
  intros H. unfold Real.wrap_signed.
  change (2 ^ (64 - 1))%Z with (2 ^ 63)%Z.
  change (2 ^ 64)%Z with (2 * 2 ^ 63)%Z.
  rewrite Z.mod_small by lia. lia.
Qed.

Lemma fold_mul_of_nat (l : list nat) (a : nat) :
  fold_left Z.mul (map Z.of_nat l) (Z.of_nat a) = Z.of_nat (fold_left Nat.mul l a).
Proof.
  revert a. induction l as [|d l IH]; intros a; [reflexivity|].
  cbn [map fold_left]. rewrite <- Nat2Z.inj_mul. apply IH.
Qed.

Lemma fold_mul_monotone (l : list nat) (a : nat) :
  Forall (fun d => (1 <= d)%nat) l -> (a <= fold_left Nat.mul l a)%nat.
Proof.
  revert a. induction l as [|d l IH]; intros a H; [apply Nat.le_refl|].
  inversion H as [|? ? Hd Hl]; subst. cbn [fold_left].
  eapply Nat.le_trans; [|apply IH, Hl]. nia.
Qed.

(** The 64-bit product of dimensions that are all positive is their
    product, as long as that fits 63 bits. *)
Lemma prod64_of_nat (l : list nat) (a : nat) :
  Forall (fun d => (1 <= d)%nat) l ->
  (Z.of_nat (fold_left Nat.mul l a) < 2 ^ 63)%Z ->
  fold_left (fun acc d => Real.wrap_signed 64 (acc * d)) (map Z.of_nat l) (Z.of_nat a)
  = Z.of_nat (fold_left Nat.mul l a).
Proof.
  revert a. induction l as [|d l IH]; intros a H Hb; [reflexivity|].
  inversion H as [|? ? Hd Hl]; subst. cbn [map fold_left] in *.
  pose proof (fold_mul_monotone l (a * d) Hl) as Hm.
  rewrite <- Nat2Z.inj_mul.
  rewrite wrap_signed_small by lia.
  apply IH; assumption.
Qed.

Lemma positive_dims (l : list nat) :
  (0 < fold_left Nat.mul l 1)%nat -> Forall (fun d => (1 <= d)%nat) l.
Proof.
  assert (H : forall a, (0 < fold_left Nat.mul l a)%nat ->
                        Forall (fun d => (1 <= d)%nat) l).
  { induction l as [|d l IH]; intros a Ha; constructor.
    - destruct d; [|lia]. cbn [fold_left] in Ha. rewrite Nat.mul_0_r in Ha.
      exfalso. clear IH. revert Ha. induction l as [|e l IHl]; cbn [fold_left]; [lia|].
      exact IHl.
    - apply (IH (a * d)%nat). exact Ha. }
  apply H.
Qed.

Lemma filter_negative_of_nat (l : list nat) :
  filter (fun d => (d <? 0)%Z) (map Z.of_nat l) = [].
Proof.
  induction l as [|d l IH]; [reflexivity|]. cbn [map filter].
  assert (E : (Z.of_nat d <? 0)%Z = false) by (apply Z.ltb_ge; lia).
  rewrite E. exact IH.
Qed.

Lemma int8_bytes_read_back (scale zero_point : npfloat) (w : list Q) :
  map Real.int8_of_byte
    (map RealWrite.byte_of_Z (map (Advanced.int8_code scale zero_point) w))
  = map (Advanced.int8_code scale zero_point) w.
Proof.
  rewrite !map_map. apply map_ext. intros v.
  apply int8_of_byte_of_Z. unfold Advanced.int8_code. apply astype_int8_range.
Qed.

Section FileHeader.

Variable unpack_d : list byte -> npfloat.
Variable unpack_h : list byte -> npfloat.

Variable p : param.

Hypothesis rank_fits : (Z.of_nat (rank p) <= 2147483647)%Z.
Hypothesis dims_fit :
  Forall (fun d => (Z.of_nat d <= 2147483647)%Z) (shape (p_array p)).

(** A file that starts with the header written for [p] is read as far as
    the end of the header, whatever follows. *)
Lemma header_written (rest : list byte) :
  exists hd,
    RealWrite.header (shape (p_array p)) = Ok hd
    /\ List.length hd = (4 + 4 * rank p)%nat
    /\ forall type,
         Real.load_param unpack_d unpack_h type (hd ++ rest)
         = (let shape := map Z.of_nat (shape (p_array p)) in
            let f := rest in
            if String.eqb type "int8"
            then
              sc <- Real.read_d unpack_d f ;;
              zp <- Real.read_d unpack_d (snd sc) ;;
              r <- Real.read 1 (snd zp) ;;
              bits <- Real.unpack_B (fst r) ;;
              match shape with
              | [] => Raise TypeError
              | _ =>
                  let data_size := Real.prod64 shape in
                  r <- Real.read data_size (snd r) ;;
                  let int8_data := map Real.int8_of_byte (fst r) in
                  let float_data :=
                    map (fun w => fmul (fsub (of_int w) (fst zp)) (fst sc)) int8_data in
                  if Real.reshape_ok (Z.of_nat (List.length float_data)) shape
                  then Ok (Real.LoadedParam shape float_data)
                  else Raise ValueError
              end
            else if String.eqb type "float16"
            then
              r <- Real.read 1 f ;;
              bits <- Real.unpack_B (fst r) ;;
              match shape with
              | [] => Raise TypeError
              | _ =>
                  let data_size := Real.wrap_signed 64 (Real.prod64 shape * 2) in
                  r <- Real.read data_size (snd r) ;;
                  if Nat.even (List.length (fst r))
                  then
                    let float16_data := map unpack_h (Real.pairs (fst r)) in
                    if Real.reshape_ok (Z.of_nat (List.length float16_data)) shape
                    then Ok (Real.LoadedParam shape float16_data)
                    else Raise ValueError
                  else Raise ValueError
              end
            else Ok Real.NotLoaded).
Proof.
  unfold RealWrite.header.
  destruct (unpack_pack_i (Z.of_nat (List.length (shape (p_array p)))))
    as (nb & Hp & Hlen & Hu); [fold (rank p); lia|].
  destruct (read_dims_written (shape (p_array p)) rest dims_fit)
    as (bss & Hm & Hl & Hr).
  rewrite Hp. cbn [bind]. rewrite Hm. cbn [bind].
  eexists. split; [reflexivity|]. split.
  - rewrite length_app, Hlen, Hl. unfold rank. lia.
  - intros type. unfold Real.load_param. rewrite <- app_assoc.
    rewrite read_exact by (rewrite Hlen; reflexivity).
    cbn [bind fst snd]. rewrite Hu. cbn [bind].
    rewrite Nat2Z.id, Hr. cbn [bind]. reflexivity.
Qed.

End FileHeader.

Lemma read_d_written (pack_d : npfloat -> list byte) (unpack_d : list byte -> npfloat)
  (x : npfloat) (rest : list byte) :
  List.length (pack_d x) = 8%nat ->
  Real.read_d unpack_d (pack_d x ++ rest) = Ok (unpack_d (pack_d x), rest).
Proof.
  intros H. unfold Real.read_d.
  rewrite read_exact by (rewrite H; reflexivity).
  cbn [bind fst snd]. rewrite H. reflexivity.
Qed.

(** X13.  A float32 matrix of more than 1000 entries that
    [quantize_and_save_real] writes as an int8 file is read back by
    [test_loading_quantized_model] with its shape, and the values it loads are
    the dequantized codes of the matrix, provided the two 8-byte parameters
    survive their encoding.  The file holds the [N] codes after a header of
    [4 + 4 * rank + 17] bytes. *)
Theorem int8_file_round_trip
  (pack_d : npfloat -> list byte) (pack_h : Q -> list byte)
  (pack_raw : dtype -> Q -> list byte)
  (unpack_d unpack_h : list byte -> npfloat)
  (p : param) (r : Advanced.Int8Result) :
  p_dtype p = float32 -> (2 <= rank p)%nat -> (1000 < numel p)%Z ->
  size (p_array p) = fold_left Nat.mul (shape (p_array p)) 1%nat ->
  (numel p < 2 ^ 63)%Z ->
  (Z.of_nat (rank p) <= 2147483647)%Z ->
  Forall (fun d => (Z.of_nat d <= 2147483647)%Z) (shape (p_array p)) ->
  (forall x, List.length (pack_d x) = 8%nat) ->
  Advanced.quantize_int8 (p_array p) = Ok r ->
  unpack_d (pack_d (Advanced.i8_scale r)) = Advanced.i8_scale r ->
  unpack_d (pack_d (Advanced.i8_zero_point r)) = Advanced.i8_zero_point r ->
  exists content,
    RealWrite.write_param pack_d pack_h pack_raw p = Ok ("int8"%string, content)
    /\ Z.of_nat (List.length content) = (numel p + 4 * Z.of_nat (rank p) + 21)%Z
    /\ Real.load_param unpack_d unpack_h "int8" content
       = Ok (Real.LoadedParam (map Z.of_nat (shape (p_array p)))
               (Mixed.dequantize (Advanced.i8_scale r) (Advanced.i8_zero_point r)
                  (Mixed.IntArray (Advanced.i8_weights r)))).
Proof.
  intros Hd Hr HN Hshape Hfit Hrank Hdims Hlen Hq Hsc Hzp.
  assert (Hne : flat (p_array p) <> []).
  { intros E. unfold numel, size in HN. rewrite E in HN. simpl in HN. lia. }
  array_bounds Hne.
  unfold Advanced.quantize_int8 in Hq. rewrite Hlo, Hhi in Hq.
  cbn [of_option bind] in Hq. injection Hq as <-.
  cbn [Advanced.i8_scale Advanced.i8_zero_point Advanced.i8_weights] in *.
  set (scale := Advanced.int8_scale lo hi) in *.
  set (zero_point := Advanced.int8_zero_point lo scale) in *.
  set (codes := map (Advanced.int8_code scale zero_point) (flat (p_array p))).
  set (payload := map RealWrite.byte_of_Z codes).
  destruct (header_written unpack_d unpack_h p Hrank Hdims
              (pack_d scale ++ pack_d zero_point ++ [x08] ++ payload))
    as (hd & Hhd & Hhl & Hload).
  assert (Hcond : is_float32 (p_dtype p) && (2 <=? rank p)%nat && (1000 <? numel p)%Z
                  = true).
  { rewrite Hd. apply Nat.leb_le in Hr. apply Z.ltb_lt in HN.
    rewrite Hr, HN. reflexivity. }
  exists (hd ++ pack_d scale ++ pack_d zero_point ++ [x08] ++ payload).
  split; [|split].
  - unfold RealWrite.write_param. rewrite Hhd. cbn [bind].
    rewrite Hcond, Hlo, Hhi. reflexivity.
  - rewrite !length_app, Hhl, !Hlen. unfold payload, codes.
    rewrite !length_map. cbn [List.length]. unfold numel, size. lia.
  - rewrite Hload. cbv zeta. rewrite String.eqb_refl.
    rewrite read_d_written by apply Hlen. cbn [bind fst snd].
    rewrite read_d_written by apply Hlen. cbn [bind fst snd].
    rewrite Hsc, Hzp.
    change ([x08] ++ payload) with (([x08] : list byte) ++ payload).
    rewrite read_exact by reflexivity. cbn [bind fst snd Real.unpack_B].
    assert (Hpos : Forall (fun d => (1 <= d)%nat) (shape (p_array p))).
    { apply positive_dims. rewrite <- Hshape. unfold numel in HN. lia. }
    assert (Hprod : Real.prod64 (map Z.of_nat (shape (p_array p))) = numel p).
    { unfold Real.prod64. change 1%Z with (Z.of_nat 1).
      rewrite prod64_of_nat; [unfold numel; rewrite Hshape; reflexivity | exact Hpos |].
      rewrite <- Hshape. exact Hfit. }
    destruct (map Z.of_nat (shape (p_array p))) as [|d0 ds] eqn:Hmap.
    { unfold rank in Hr. destruct (shape (p_array p)); [simpl in Hr; lia | discriminate]. }
    cbv iota. rewrite <- Hmap in Hprod |- *. rewrite Hprod.
    rewrite <- (app_nil_r payload) at 1.
    rewrite read_exact
      by (unfold payload, codes; rewrite !length_map; reflexivity).
    cbn [bind fst snd]. unfold payload, codes.
    rewrite int8_bytes_read_back.
    assert (Hre : Real.reshape_ok
                    (Z.of_nat
                       (List.length
                          (map (fun w => fmul (fsub (of_int w) zero_point) scale)
                             (map (Advanced.int8_code scale zero_point)
                                (flat (p_array p))))))
                    (map Z.of_nat (shape (p_array p))) = true).
    { unfold Real.reshape_ok. rewrite filter_negative_of_nat.
      rewrite !length_map. change 1%Z with (Z.of_nat 1).
      rewrite fold_mul_of_nat, <- Hshape. apply Z.eqb_refl. }
    rewrite Hre. unfold Mixed.dequantize, Mixed.astype_float32.
    rewrite !map_map. reflexivity.
Qed.

Lemma int8_file_round_trip_witness :
  let p := mk_param float32 (mk_ndarray [7; 143]%nat (repeat 0 1000 ++ [254])) in
  let r := Advanced.mk_Int8Result (repeat (-127)%Z 1000 ++ [127%Z])
             (Fin 1) (Fin (-127)) [7; 143]%nat in
  let pack_d := fun x : npfloat =>
    match x with
    | Fin q => if Qeq_bool q 1 then x01 :: repeat x00 7 else repeat x00 8
    | _ => repeat x00 8
    end in
  let unpack_d := fun bs : list byte =>
    match bs with x01 :: _ => Fin 1 | _ => Fin (-127) end in
  let pack_h := fun _ : Q => @nil byte in
  let pack_raw := fun (_ : dtype) (_ : Q) => @nil byte in
  let unpack_h := fun _ : list byte => NaN in
  exists content,
    RealWrite.write_param pack_d pack_h pack_raw p = Ok ("int8"%string, content)
    /\ Z.of_nat (List.length content) = (numel p + 4 * Z.of_nat (rank p) + 21)%Z
    /\ Real.load_param unpack_d unpack_h "int8" content
       = Ok (Real.LoadedParam (map Z.of_nat (shape (p_array p)))
               (Mixed.dequantize (Advanced.i8_scale r) (Advanced.i8_zero_point r)
                  (Mixed.IntArray (Advanced.i8_weights r)))).
Proof.
  intros p r pack_d unpack_d pack_h pack_raw unpack_h.
  apply (int8_file_round_trip pack_d pack_h pack_raw unpack_d unpack_h p r).
  - reflexivity.
  - vm_compute. lia.
  - vm_compute. reflexivity.
  - vm_compute. reflexivity.
  - vm_compute. reflexivity.
  - vm_compute. discriminate.
  - repeat constructor; vm_compute; discriminate.
  - intros [q| | |]; unfold pack_d; [destruct (Qeq_bool q 1)|..]; reflexivity.
  - vm_compute. reflexivity.
  - reflexivity.
  - reflexivity.
Defined.

Lemma pairs_concat (A : Type) (pack : A -> list byte) (l : list A) :
  (forall x, In x l -> List.length (pack x) = 2%nat) ->
  Real.pairs (List.concat (map pack l)) = map pack l.
Proof.
  induction l as [|x l IH]; intros H; [reflexivity|].
  cbn [map List.concat].
  pose proof (H x (or_introl eq_refl)) as Hx.
  destruct (pack x) as [|b1 [|b2 [|b3 t]]] eqn:E; try discriminate.
  cbn [app Real.pairs]. rewrite IH; [reflexivity|].
  intros y Hy. apply H. right. exact Hy.
Qed.

Lemma length_concat_pairs (A : Type) (pack : A -> list byte) (l : list A) :
  (forall x, In x l -> List.length (pack x) = 2%nat) ->
  List.length (List.concat (map pack l)) = (2 * List.length l)%nat.
Proof.
  induction l as [|x l IH]; intros H; [reflexivity|].
  cbn [map List.concat List.length]. rewrite length_app, IH.
  - rewrite (H x (or_introl eq_refl)). lia.
  - intros y Hy. apply H. right. exact Hy.
Qed.

(** X14.  A float32 parameter of more than one entry that is not a large
    matrix is written by [quantize_and_save_real] as a float16 file of
    [4 + 4 * rank + 1 + 2 * N] bytes, and [test_loading_quantized_model] reads
    it back with its shape and with every entry rounded to half precision,
    provided a half-precision value takes two bytes and decodes to the rounded
    entry. *)
Theorem float16_file_round_trip
  (pack_d : npfloat -> list byte) (pack_h : Q -> list byte)
  (pack_raw : dtype -> Q -> list byte)
  (unpack_d unpack_h : list byte -> npfloat)
  (half : Q -> npfloat) (p : param) :
  p_dtype p = float32 -> (1 < numel p)%Z ->
  (2 <=? rank p)%nat && (1000 <? numel p)%Z = false ->
  size (p_array p) = fold_left Nat.mul (shape (p_array p)) 1%nat ->
  (2 * numel p < 2 ^ 63)%Z ->
  (Z.of_nat (rank p) <= 2147483647)%Z ->
  Forall (fun d => (Z.of_nat d <= 2147483647)%Z) (shape (p_array p)) ->
  (forall x, In x (flat (p_array p)) ->
     List.length (pack_h x) = 2%nat /\ unpack_h (pack_h x) = half x) ->
  exists content,
    RealWrite.write_param pack_d pack_h pack_raw p = Ok ("float16"%string, content)
    /\ Z.of_nat (List.length content) = (2 * numel p + 4 * Z.of_nat (rank p) + 5)%Z
    /\ Real.load_param unpack_d unpack_h "float16" content
       = Ok (Real.LoadedParam (map Z.of_nat (shape (p_array p)))
               (map half (flat (p_array p)))).
Proof.
  intros Hd HN Hsmall Hshape Hfit Hrank Hdims Hpack.
  set (payload := List.concat (map pack_h (flat (p_array p)))).
  assert (Hpl : List.length payload = (2 * size (p_array p))%nat).
  { unfold payload, size. apply length_concat_pairs.
    intros x Hx. apply (Hpack x Hx). }
  destruct (header_written unpack_d unpack_h p Hrank Hdims ([x10] ++ payload))
    as (hd & Hhd & Hhl & Hload).
  exists (hd ++ [x10] ++ payload).
  split; [|split].
  - unfold RealWrite.write_param. rewrite Hhd. cbn [bind].
    rewrite Hd. cbn [is_float32 andb]. rewrite Hsmall.
    apply Z.ltb_lt in HN. rewrite HN. reflexivity.
  - rewrite !length_app, Hhl, Hpl. cbn [List.length]. unfold numel. lia.
  - rewrite Hload. cbv zeta.
    change (String.eqb "float16" "int8") with false.
    change (String.eqb "float16" "float16") with true. cbv iota.
    change ([x10] ++ payload) with (([x10] : list byte) ++ payload).
    rewrite read_exact by reflexivity. cbn [bind fst snd Real.unpack_B].
    assert (Hpos : Forall (fun d => (1 <= d)%nat) (shape (p_array p))).
    { apply positive_dims. rewrite <- Hshape. unfold numel in HN. lia. }
    assert (Hprod : Real.prod64 (map Z.of_nat (shape (p_array p))) = numel p).
    { unfold Real.prod64. change 1%Z with (Z.of_nat 1).
      rewrite prod64_of_nat; [unfold numel; rewrite Hshape; reflexivity | exact Hpos |].
      rewrite <- Hshape. unfold numel in Hfit. lia. }
    assert (Hrk : shape (p_array p) <> []).
    { intros E. rewrite E in Hshape. cbn [fold_left] in Hshape.
      unfold numel in HN. lia. }
    destruct (map Z.of_nat (shape (p_array p))) as [|d0 ds] eqn:Hmap.
    { destruct (shape (p_array p)); [congruence | discriminate]. }
    cbv iota. rewrite <- Hmap in Hprod |- *. rewrite Hprod.
    assert (Hw : Real.wrap_signed 64 (numel p * 2) = (numel p * 2)%Z).
    { apply wrap_signed_small. unfold numel in *. lia. }
    rewrite Hw.
    rewrite <- (app_nil_r payload) at 1.
    rewrite read_exact by (rewrite Hpl; unfold numel; lia).
    cbn [bind fst snd].
    assert (He : Nat.even (List.length payload) = true).
    { rewrite Hpl. apply Nat.even_spec. exists (size (p_array p)). reflexivity. }
    rewrite He. unfold payload.
    rewrite pairs_concat by (intros x Hx; apply (Hpack x Hx)).
    assert (Hre : Real.reshape_ok
                    (Z.of_nat (List.length (map unpack_h (map pack_h (flat (p_array p))))))
                    (map Z.of_nat (shape (p_array p))) = true).
    { unfold Real.reshape_ok. rewrite filter_negative_of_nat.
      rewrite !length_map. change 1%Z with (Z.of_nat 1).
      rewrite fold_mul_of_nat, <- Hshape. apply Z.eqb_refl. }
    rewrite Hre. rewrite map_map. f_equal. f_equal.
    apply map_ext_in. intros x Hx. apply (Hpack x Hx).
Qed.

Lemma float16_file_round_trip_witness :
  let p := mk_param float32 (mk_ndarray [3]%nat [1; 2; 3]) in
  let pack_d := fun _ : npfloat => repeat x00 8 in
  let unpack_d := fun _ : list byte => NaN in
  let pack_h := fun x : Q => [RealWrite.byte_of_Z (Qfloor x); x00] in
  let unpack_h := fun bs : list byte =>
    match bs with b :: _ => Fin (inject_Z (Real.byte_val b)) | [] => NaN end in
  let pack_raw := fun (_ : dtype) (_ : Q) => @nil byte in
  exists content,
    RealWrite.write_param pack_d pack_h pack_raw p = Ok ("float16"%string, content)
    /\ Z.of_nat (List.length content) = (2 * numel p + 4 * Z.of_nat (rank p) + 5)%Z
    /\ Real.load_param unpack_d unpack_h "float16" content
       = Ok (Real.LoadedParam (map Z.of_nat (shape (p_array p)))
               (map Fin (flat (p_array p)))).
Proof.
  intros p pack_d unpack_d pack_h unpack_h pack_raw.
  apply (float16_file_round_trip pack_d pack_h pack_raw unpack_d unpack_h Fin p).
  - reflexivity.
  - vm_compute. reflexivity.
  - reflexivity.
  - reflexivity.
  - vm_compute. reflexivity.
  - vm_compute. discriminate.
  - repeat constructor; vm_compute; discriminate.
  - intros x [<- | [<- | [<- | []]]]; split; reflexivity.
Defined.

Lemma read_write_file (files : list (string * list byte)) (name f : string)
  (content : list byte) :
  RealWrite.read_file (RealWrite.write_file files name content) f
  = if String.eqb name f then Some content else RealWrite.read_file files f.
Proof.
  induction files as [|[n c] files IH]; cbn [RealWrite.write_file RealWrite.read_file].
  - reflexivity.
  - destruct (String.eqb n name) eqn:E.
    + apply String.eqb_eq in E. subst n. cbn [RealWrite.read_file].
      destruct (String.eqb name f); reflexivity.
    + cbn [RealWrite.read_file]. rewrite IH.
      destruct (String.eqb n f) eqn:E1; [|reflexivity].
      apply String.eqb_eq in E1. subst f. rewrite String.eqb_sym, E. reflexivity.
Qed.

Lemma find_last (A : Type) (t : A -> bool) (l : list A) (x : A) :
  find t (l ++ [x])
  = match find t l with
    | Some y => Some y
    | None => if t x then Some x else None
    end.
Proof.
  induction l as [|y l IH]; cbn [app find]; [reflexivity|].
  destruct (t y); [reflexivity | exact IH].
Qed.

(** X15.  After the saving loop of [quantize_and_save_real], a file of the
    output directory holds what was written for the last parameter whose name
    maps to it: names that differ only in [.] against [_] share one file, and
    the later parameter replaces the earlier one.  A file no parameter maps to
    is left as it was. *)
Theorem save_loop_last_writer_wins
  (pack_d : npfloat -> list byte) (pack_h : Q -> list byte)
  (pack_raw : dtype -> Q -> list byte)
  (sd : state_dict) (files files' : list (string * list byte))
  (parameters parameters' : list (string * (string * string))) :
  RealWrite.save_loop pack_d pack_h pack_raw sd files parameters
    = Ok (files', parameters') ->
  forall f : string,
    match find (fun kv => String.eqb (RealWrite.param_file_name (fst kv)) f) (rev sd) with
    | Some kv =>
        exists r, RealWrite.write_param pack_d pack_h pack_raw (snd kv) = Ok r
                  /\ RealWrite.read_file files' f = Some (snd r)
    | None => RealWrite.read_file files' f = RealWrite.read_file files f
    end.
Proof.
  revert files parameters.
  induction sd as [|[name p] sd IH]; intros files parameters H f.
  - cbn in H. injection H as <- _. reflexivity.
  - cbn [RealWrite.save_loop] in H.
    destruct (RealWrite.write_param pack_d pack_h pack_raw p) as [r|e] eqn:Hw;
      [|discriminate].
    cbn [bind] in H. specialize (IH _ _ H f).
    cbn [rev]. rewrite find_last. cbn [fst snd].
    destruct (find _ (rev sd)) as [kv|]; [exact IH|].
    rewrite read_write_file in IH.
    destruct (String.eqb (RealWrite.param_file_name name) f).
    + exists r. split; [exact Hw | exact IH].
    + exact IH.
Qed.

Lemma save_loop_last_writer_wins_witness :
  let pack_d := fun _ : npfloat => repeat x00 8 in
  let pack_h := fun x : Q => [RealWrite.byte_of_Z (Qfloor x); x00] in
  let pack_raw := fun (_ : dtype) (x : Q) => [RealWrite.byte_of_Z (Qfloor x)] in
  let first := mk_param float32 (mk_ndarray [2]%nat [1; 2]) in
  let second := mk_param int64 (mk_ndarray [1]%nat [7]) in
  let sd := [("ln.weight"%string, first); ("ln_weight"%string, second)] in
  let files' := [("ln_weight.bin"%string, [x01; x00; x00; x00; x01; x00; x00; x00; x20; x07])] in
  exists r, RealWrite.write_param pack_d pack_h pack_raw second = Ok r
            /\ RealWrite.read_file files' "ln_weight.bin" = Some (snd r).
Proof.
  intros pack_d pack_h pack_raw first second sd files'.
  apply (save_loop_last_writer_wins pack_d pack_h pack_raw sd [] files' []
           [("ln.weight"%string, ("ln_weight.bin"%string, "float16"%string));
            ("ln_weight"%string, ("ln_weight.bin"%string, "float32"%string))]
           eq_refl "ln_weight.bin"%string).
Defined.
